(** * sarif-web-component: the discussion pane and the viewer core

    A shallow embedding of [src/components/Viewer.Discussion.tsx] (the
    discussion store, its list/detail views and the comment box) and of the
    viewer component (run store construction, ranking, and the
    "results updated" prompt), followed by the properties established about
    them. *)

From Stdlib Require Import ZArith Lia Bool Ascii String Sorted.
From stdpp Require Import list strings.

Local Open Scope string_scope.
Local Open Scope Z_scope.

(* ===================================================================== *)
(** * Part I: definitions                                                 *)
(* ===================================================================== *)

(** ** JavaScript strings and arrays

    A JavaScript string is modelled by the sequence of its UTF-16 code units,
    restricted to code units below 256 (the Latin-1 range); one [ascii] is one
    code unit.  Both [toLowerCase] and the character class [\s] are closed
    under that restriction. *)
Module JS.

(** Code units that have a distinct lower-case form: [A-Z], and U+00C0 to
    U+00DE except the multiplication sign U+00D7. *)
Definition hasLowerForm (n : N) : bool :=
  ((65 <=? n) && (n <=? 90) ||
   (192 <=? n) && (n <=? 222) && negb (n =? 215))%N.

Definition lowerCodeUnit (c : ascii) : ascii :=
  let n := N_of_ascii c in
  if hasLowerForm n then ascii_of_N (n + 32) else c.

(** [String.prototype.toLowerCase]. *)
Fixpoint toLowerCase (s : string) : string :=
  match s with
  | EmptyString => EmptyString
  | String c s' => String (lowerCodeUnit c) (toLowerCase s')
  end.

(** The regular-expression class [\s]: TAB, LF, VT, FF, CR, SPACE, NBSP. *)
Definition isWhiteSpace (c : ascii) : bool :=
  let n := N_of_ascii c in
  ((9 <=? n) && (n <=? 13) || (n =? 32) || (n =? 160))%N.

(** [s.split(/\s+/)]: the pieces between maximal runs of white space.  A
    leading or trailing run leaves an empty piece at that end, and the empty
    string splits into one empty piece.  [piece] is the piece being read and
    [inRun] tells whether the previous code unit was white space. *)
Fixpoint split_aux (piece : string) (inRun : bool) (s : string) : list string :=
  match s with
  | EmptyString => [piece]
  | String c s' =>
      if isWhiteSpace c
      then if inRun then split_aux piece true s'
           else piece :: split_aux EmptyString true s'
      else split_aux (piece +:+ String c EmptyString) false s'
  end.

Definition split_ws (s : string) : list string := split_aux EmptyString false s.

(** Truthiness of a string: every string but the empty one. *)
Definition truthy (s : string) : bool := negb (String.eqb s EmptyString).

(** [String.prototype.includes]. *)
Fixpoint includes (s searchString : string) : bool :=
  String.prefix searchString s ||
  match s with
  | EmptyString => false
  | String _ s' => includes s' searchString
  end.

(** [String.prototype.trim]; the sources never call it, it is used to state
    what "empty after trimming" means. *)
Fixpoint trimStart (s : string) : string :=
  match s with
  | EmptyString => EmptyString
  | String c s' => if isWhiteSpace c then trimStart s' else s
  end.

Fixpoint trimEnd (s : string) : string :=
  match s with
  | EmptyString => EmptyString
  | String c s' =>
      let r := trimEnd s' in
      if isWhiteSpace c && String.eqb r EmptyString then EmptyString else String c r
  end.

Definition trim (s : string) : string := trimEnd (trimStart s).

(** [a ?? b] on an optional string. *)
Definition nullish (a : option string) (b : string) : string :=
  match a with Some v => v | None => b end.

(** [Array.prototype.sort(compareFn)].  The sort is stable (ES2019): an
    element moves behind another one only when [compareFn] puts it strictly
    after.  It is modelled by insertion from the right, which yields the one
    stable sorted arrangement whenever [compareFn] is consistent. *)
Section Sort.
Context {A : Type} (compareFn : A -> A -> Z).

Fixpoint insert_sorted (x : A) (l : list A) : list A :=
  match l with
  | [] => [x]
  | y :: l' =>
      if compareFn x y <=? 0 then x :: y :: l' else y :: insert_sorted x l'
  end.

Definition sort (l : list A) : list A := foldr insert_sorted [] l.
End Sort.

(** What makes [compareFn] a consistent comparator for [sort]: it orders
    every two elements the same way whichever is given first, and its
    "not after" is transitive. *)
Record Consistent {A : Type} (compareFn : A -> A -> Z) : Prop := {
  cmp_refl : forall a, compareFn a a = 0;
  cmp_flip : forall a b, 0 < compareFn a b <-> compareFn b a < 0;
  cmp_trans : forall a b c,
      compareFn a b <= 0 -> compareFn b c <= 0 -> compareFn a c <= 0
}.

(** Comparison of two strings code unit by code unit, as a comparator. *)
Definition compareCodeUnits (a b : string) : Z :=
  match String.compare a b with
  | Lt => -1
  | Eq => 0
  | Gt => 1
  end.

End JS.


(** ** The filter state shared by the viewer and the discussion pane

    [IFilterState] of the filter-bar widget, restricted to the two categories
    the sources read: [Keywords?.value] and [Discussion?.value]. *)
Record IFilterState := {
  Keywords : option string;
  Discussion : option (list string)
}.

(** ** src/components/Viewer.Discussion.tsx *)
Module ViewerDiscussion.

Definition statuses : list string := ["Open"; "Closed"].

Definition dispositions : list string :=
  ["Should fix, P1"; "Should fix, P2"; "Should fix, P3";
   "Ignore for 90 days"; "Not worth fixing"; "False positive"; "Discussion"].

(** [Comment] of ./PipelineContext, with the three members the sources
    read ([const {who, when, text} = comment]) in the order in which
    [new Comment(who, when, text)] is given them; a date is its time value in
    milliseconds. *)
Record Comment := {
  who : string;
  when : Z;
  text : string
}.

Record DiscussionItem := {
  disposition : string;
  comments : list Comment;
  keywords : string;
  status : string
}.

(** [new DiscussionItem(keywords, status, comments)]. *)
Definition newDiscussionItem (keywords status : string) (comments : list Comment)
  : DiscussionItem :=
  {| disposition := nth 0 dispositions EmptyString;
     comments := comments;
     keywords := keywords;
     status := status |}.

(** The module-level [store.discussions] as the module is loaded.  The dates
    are given as the time values of the UTC midnights. *)
Definition store_discussions : list DiscussionItem :=
  [ newDiscussionItem "RULE01" (nth 0 statuses EmptyString)
      [ Build_Comment "Michael" 1262304000000 "Lorem ipsum dolor sit amet, consectetur adipiscing elit, sed do eiusmod tempor incididunt ut labore et dolore magna aliqua.";
        Build_Comment "Jeff" 1262390400000 "Ut enim ad minim veniam, quis nostrud exercitation ullamco laboris nisi ut aliquip ex ea commodo consequat.";
        Build_Comment "Michael" 1262476800000 "Platea dictumst quisque sagittis purus sit amet volutpat. Urna id volutpat lacus laoreet non curabitur gravida arcu ac.";
        Build_Comment "Jeff" 1262563200000 "Sed vulputate mi sit amet mauris commodo quis imperdiet. Sed felis eget velit aliquet sagittis id consectetur purus ut. Tincidunt tortor aliquam nulla facilisi cras fermentum odio. Turpis egestas maecenas pharetra convallis posuere morbi leo urna molestie." ];
    newDiscussionItem "RULE01 RULE02" (nth 1 statuses EmptyString)
      [ Build_Comment "Larry" 1264982400000 "Duis aute irure dolor in reprehenderit in voluptate velit esse cillum dolore eu fugiat nulla pariatur." ];
    newDiscussionItem "RULE01 RULE02 RULE03" (nth 0 statuses EmptyString)
      [ Build_Comment "Alison" 1267401600000 "Excepteur sint occaecat cupidatat non proident, sunt in culpa qui officia deserunt mollit anim id est laborum." ] ].

(** The private state of a mounted [DiscussionDetails]. *)
Record DetailsState := {
  showAll : bool;
  newComment : string;
  newCommentError : bool
}.

Definition mountDetails : DetailsState :=
  {| showAll := false; newComment := EmptyString; newCommentError := false |}.

Definition limit : nat := 3.

(** The store, the props and the state of the [Discussion] component.  The
    objects of [store.discussions] are shared by reference with
    [selectedDiscussion] and with the rendered list; the array only grows at
    its end, so an object is referred to by its position in the array.
    [details] is the state of the [DiscussionDetails] child, mounted anew each
    time a discussion gets selected. *)
Record State := {
  discussions : list DiscussionItem;
  filterState : IFilterState;
  user : option string;
  selectedDiscussion : option nat;
  details : DetailsState
}.

Section WithIsMatch.
(** [isMatch(field, keywords)] of ./RunStore, whose source is not part of
    the files at hand: it is a parameter of the component. *)
Variable isMatch : string -> list string -> bool.

(** The callback of [store.discussions.filter] in [filteredDiscussions]. *)
Definition isVisible (filterState : IFilterState) (thread : DiscussionItem) : bool :=
  let keywords :=
    match Keywords filterState with
    | Some value => List.filter JS.truthy (JS.split_ws (JS.toLowerCase value))
    | None => []
    end in
  let statuses :=
    match Discussion filterState with
    | Some value => value
    | None => []
    end in
  let isStatusMatch :=
    (length statuses =? 0)%nat ||
    existsb (String.eqb (status thread)) statuses in
  let isKeywordMatch :=
    isMatch (JS.toLowerCase (if JS.truthy (ViewerDiscussion.keywords thread)
                             then ViewerDiscussion.keywords thread else EmptyString))
            keywords in
  isStatusMatch && isKeywordMatch.

(** [get filteredDiscussions()]. *)
Definition filteredDiscussions (filterState : IFilterState)
    (discussions : list DiscussionItem) : list DiscussionItem :=
  List.filter (isVisible filterState) discussions.

(** [get hasExactKeywordMatch()]. *)
Definition hasExactKeywordMatch (filterState : IFilterState)
    (discussions : list DiscussionItem) : bool :=
  match Keywords filterState with
  | None => true
  | Some keywords =>
      if negb (JS.truthy keywords) then true
      else
        let keywords := JS.toLowerCase keywords in
        existsb (fun discussion =>
                   String.eqb (JS.toLowerCase (ViewerDiscussion.keywords discussion)) keywords)
                (filteredDiscussions filterState discussions)
  end.

(** *** What the user can do, and what each handler does *)

(** The events of the pane: a change of the [filterState] prop coming from
    the viewer, and the user's actions on the controls that [render] puts on
    the page.  [KeyPress] carries the value [new Date()] has at that
    moment. *)
Inductive Event :=
| SetFilterState (newState : IFilterState)
| ClickBack
| ClickStartNewDiscussion
| ClickDiscussion (ref : nat)
| SelectStatus (ref : nat) (item : string)
| SelectDisposition (ref : nat) (item : string)
| ClickViewMore
| ChangeNewComment (newValue : string)
| KeyPress (key : string) (now : Z).

Definition withDiscussions (st : State) (ds : list DiscussionItem) : State :=
  {| discussions := ds; filterState := filterState st; user := user st;
     selectedDiscussion := selectedDiscussion st; details := details st |}.

Definition withSelected (st : State) (sel : option nat) (d : DetailsState) : State :=
  {| discussions := discussions st; filterState := filterState st;
     user := user st; selectedDiscussion := sel; details := d |}.

Definition withDetails (st : State) (d : DetailsState) : State :=
  withSelected st (selectedDiscussion st) d.

(** [onSelect={item => discussion.status = item}]. *)
Definition setStatus (item : string) (discussion : DiscussionItem) : DiscussionItem :=
  {| disposition := disposition discussion; comments := comments discussion;
     keywords := keywords discussion; status := item |}.

(** [onSelect={item => discussion.disposition = item}]. *)
Definition setDisposition (item : string) (discussion : DiscussionItem) : DiscussionItem :=
  {| disposition := item; comments := comments discussion;
     keywords := keywords discussion; status := status discussion |}.

(** [discussion.comments.push(comment)]. *)
Definition pushComment (comment : Comment) (discussion : DiscussionItem) : DiscussionItem :=
  {| disposition := disposition discussion;
     comments := comments discussion ++ [comment];
     keywords := keywords discussion; status := status discussion |}.

(** The [onClick] of "Start new discussion"; [keywords] is the value of the
    keyword filter that [render] captured. *)
Definition onClickStartNewDiscussion (keywords : string) (st : State) : State :=
  let newDiscussion := newDiscussionItem keywords (nth 0 statuses EmptyString) [] in
  {| discussions := discussions st ++ [newDiscussion];
     filterState := filterState st;
     user := user st;
     selectedDiscussion := Some (length (discussions st));
     details := mountDetails |}.

(** The [onChange] of the comment box. *)
Definition onChange (newValue : string) (st : State) : State :=
  withDetails st {| showAll := showAll (details st);
                    newComment := newValue;
                    newCommentError := negb (JS.truthy newValue) |}.

(** The [onKeyPress] of the comment box of the discussion [ref]. *)
Definition onKeyPress (ref : nat) (key : string) (now : Z) (st : State) : State :=
  if negb (String.eqb key "Enter") then st
  else
    let comment := {| who := JS.nullish (user st) "Anonymous";
                      when := now;
                      text := newComment (details st) |} in
    {| discussions := alter (pushComment comment) ref (discussions st);
       filterState := filterState st;
       user := user st;
       selectedDiscussion := selectedDiscussion st;
       details := {| showAll := showAll (details st);
                     newComment := EmptyString;
                     newCommentError := newCommentError (details st) |} |}.

(** The comments [DiscussionDetails] shows:
    [comments.slice(0, showAll ? undefined : limit)]. *)
Definition shownComments (d : DetailsState) (discussion : DiscussionItem) : list Comment :=
  if showAll d then comments discussion else take limit (comments discussion).

(** Whether [render] puts the header (with its two dropdowns) of the
    discussion [ref] on the page: in the list, for the filtered
    discussions; in the detail view, for the selected one. *)
Definition rendersHeader (st : State) (ref : nat) : bool :=
  match selectedDiscussion st with
  | Some sel => (ref =? sel)%nat
  | None =>
      match discussions st !! ref with
      | Some thread => isVisible (filterState st) thread
      | None => false
      end
  end.

(** One event.  [None]: [render] has not put the control on the page, so
    the event cannot happen and no handler runs. *)
Definition step (st : State) (ev : Event) : option State :=
  match ev with
  | SetFilterState newState =>
      Some {| discussions := discussions st; filterState := newState;
              user := user st; selectedDiscussion := selectedDiscussion st;
              details := details st |}
  | ClickBack =>
      match selectedDiscussion st with
      | Some _ => Some (withSelected st None (details st))
      | None => None
      end
  | ClickStartNewDiscussion =>
      match selectedDiscussion st, Keywords (filterState st) with
      | None, Some keywords =>
          if hasExactKeywordMatch (filterState st) (discussions st) then None
          else Some (onClickStartNewDiscussion keywords st)
      | _, _ => None
      end
  | ClickDiscussion ref =>
      match selectedDiscussion st with
      | None =>
          if rendersHeader st ref
          then Some (withSelected st (Some ref) mountDetails)
          else None
      | Some _ => None
      end
  | SelectStatus ref item =>
      if rendersHeader st ref && existsb (String.eqb item) statuses
      then Some (withDiscussions st (alter (setStatus item) ref (discussions st)))
      else None
  | SelectDisposition ref item =>
      if rendersHeader st ref && existsb (String.eqb item) dispositions
      then Some (withDiscussions st (alter (setDisposition item) ref (discussions st)))
      else None
  | ClickViewMore =>
      match selectedDiscussion st with
      | Some ref =>
          match discussions st !! ref with
          | Some discussion =>
              if (limit <? length (comments discussion))%nat && negb (showAll (details st))
              then Some (withDetails st {| showAll := true;
                                           newComment := newComment (details st);
                                           newCommentError := newCommentError (details st) |})
              else None
          | None => None
          end
      | None => None
      end
  | ChangeNewComment newValue =>
      match selectedDiscussion st with
      | Some _ => Some (onChange newValue st)
      | None => None
      end
  | KeyPress key now =>
      match selectedDiscussion st with
      | Some ref => Some (onKeyPress ref key now st)
      | None => None
      end
  end.

(** A sequence of events, each one possible where it happens. *)
Fixpoint run (st : State) (evs : list Event) : option State :=
  match evs with
  | [] => Some st
  | ev :: evs' =>
      match step st ev with
      | Some st' => run st' evs'
      | None => None
      end
  end.

(** The pane as it is first mounted, over the store the module starts
    with. *)
Definition initial (filterState : IFilterState) (user : option string) : State :=
  {| discussions := store_discussions;
     filterState := filterState;
     user := user;
     selectedDiscussion := None;
     details := mountDetails |}.

Inductive reachable : State -> Prop :=
| reachable_initial filterState user : reachable (initial filterState user)
| reachable_step st ev st' :
    reachable st -> step st ev = Some st' -> reachable st'.
End WithIsMatch.

(** Modelled from the spec: [isMatch] of ./RunStore, which the sources at
    hand import but do not contain.  The spec's KeywordMatcher: no token
    matches everything, otherwise every token has to be a substring of the
    haystack; the callers pass both in lower case. *)
Definition isMatch (field : string) (keywords : list string) : bool :=
  forallb (JS.includes field) keywords.

End ViewerDiscussion.

(** ** The viewer component (class [Viewer]) *)
Module Viewer.

(** Modelled from the spec: [PipelineContext] of ./PipelineContext, which the
    sources at hand import but do not contain.  The review collaborator
    exposes [reviews] (a loaded marker, or null while loading), the integer
    [reviewRevision] and the boolean [showReviewUpdated]. *)
Record PipelineContext := {
  reviews : option unit;
  reviewRevision : Z;
  showReviewUpdated : bool
}.

(** Modelled from the spec: the report of the review collaborator that
    background results changed, which sets the flag. *)
Definition reportReviewUpdated (c : PipelineContext) : PipelineContext :=
  {| reviews := reviews c; reviewRevision := reviewRevision c;
     showReviewUpdated := true |}.

(** Modelled from the spec: the array extension [sorted] of ./extension,
    which the sources at hand import but do not contain: it sorts with the
    comparator as [Array.prototype.sort] does, stably, and returns the
    array. *)
Definition sorted {A : Type} (compareFn : A -> A -> Z) (l : list A) : list A :=
  JS.sort compareFn l.

(** [Array.prototype.slice()]: a copy of the array. *)
Definition slice {A : Type} (l : list A) : list A := l.

Section WithRunStore.
(** A [Run] of the sarif typings is opaque here. *)
Context {Run : Type}.

Record Log := {
  version : string;
  runs : list Run
}.

(** The props of the viewer that the code below reads. *)
Record ViewerProps := {
  logs : option (list Log);
  hideBaseline : option bool;
  showAge : option bool
}.

(** Modelled from the spec: [RunStore] of ./RunStore, which the sources at
    hand import but do not contain: the aggregate of one run, holding what
    [new RunStore(run, i, filter, groupByAge, pipelineContext, hideBaseline,
    showAge)] is given.  [filter], [groupByAge] and [pipelineContext] are the
    viewer's own shared objects, the same for every run store. *)
Record RunStore := {
  run : Run;
  logIndex : nat;
  storeHideBaseline : option bool;
  storeShowAge : option bool
}.

(** The members of [RunStore] read by the viewer, and the collation of the
    host behind [String.prototype.localeCompare], are parameters. *)
Variable driverName : RunStore -> string.
Variable filteredCount : IFilterState -> RunStore -> Z.
Variable localeCompare : string -> string -> Z.

(** The runs of the logs of the supported version, in the order in which
    the logs hold them:
    [[].concat(...logs.filter(log => log.version === '2.1.0').map(log => log.runs))]. *)
Definition qualifyingRuns (logs : list Log) : list Run :=
  concat (map runs (List.filter (fun log => String.eqb (version log) "2.1.0") logs)).

(** The comparator of the sort in [runStores]. *)
Definition byDriverName (a b : RunStore) : Z :=
  localeCompare (driverName a) (driverName b).

(** [runs.map((run, i) => new RunStore(run, i, filter, groupByAge,
    pipelineContext, hideBaseline, showAge))]. *)
Definition newRunStores (props : ViewerProps) (runs : list Run) : list RunStore :=
  imap (fun i run => {| run := run; logIndex := i;
                        storeHideBaseline := hideBaseline props;
                        storeShowAge := showAge props |}) runs.

(** The function under [computedFn] in [runStores]. *)
Definition runStores (props : ViewerProps) (logs : option (list Log)) : list RunStore :=
  match logs with
  | None => []
  | Some logs =>
      let runs := qualifyingRuns logs in
      let runStores := newRunStores props runs in
      JS.sort byDriverName runStores
  end.

(** The comparator of [runStoresSorted]: highest count first. *)
Definition highestCountFirst (filterState : IFilterState) (a b : RunStore) : Z :=
  filteredCount filterState b - filteredCount filterState a.

(** [get runStoresSorted()], under the filter state the counts are read
    against. *)
Definition runStoresSorted (props : ViewerProps) (filterState : IFilterState)
  : list RunStore :=
  sorted (highestCountFirst filterState) (slice (runStores props (logs props))).
End WithRunStore.

Arguments Log : clear implicits.
Arguments ViewerProps : clear implicits.
Arguments RunStore : clear implicits.

(** *** The "Some results updated" prompt *)

(** The state of the filter of the viewer and its pipeline context, which is
    absent when the viewer is given no [pipelineId].  The events below are
    those of one pipeline context: the [autorun] that creates the context for
    a [pipelineId], and with it a revision counter of its own, is not among
    them. *)
Record State := {
  filter : IFilterState;
  pipelineContext : option PipelineContext
}.

Inductive Event :=
| FilterChanged (newState : IFilterState)
| ReviewUpdated
| ClickReapplyFilter.

(** The body of the [autorun] of the constructor, which runs each time the
    state of the filter changes:
    [if (this.pipelineContext) this.pipelineContext.showReviewUpdated = false]. *)
Definition onFilterState (pipelineContext : option PipelineContext)
  : option PipelineContext :=
  match pipelineContext with
  | Some c => Some {| reviews := reviews c; reviewRevision := reviewRevision c;
                      showReviewUpdated := false |}
  | None => None
  end.

(** [onCallToActionClick] of the toast. *)
Definition onCallToActionClick (c : PipelineContext) : PipelineContext :=
  let c1 := {| reviews := reviews c; reviewRevision := reviewRevision c;
               showReviewUpdated := false |} in
  {| reviews := reviews c1; reviewRevision := reviewRevision c1 + 1;
     showReviewUpdated := showReviewUpdated c1 |}.

(** Whether [render] shows the toast: it returns null while the reviews of a
    pipeline context are not loaded, and the toast needs
    [pipelineContext?.showReviewUpdated]. *)
Definition rendersToast (st : State) : bool :=
  match pipelineContext st with
  | Some c =>
      match reviews c with
      | Some _ => showReviewUpdated c
      | None => false
      end
  | None => false
  end.

(** One event; [None] when the control is not on the page. *)
Definition step (st : State) (ev : Event) : option State :=
  match ev with
  | FilterChanged newState =>
      Some {| filter := newState;
              pipelineContext := onFilterState (pipelineContext st) |}
  | ReviewUpdated =>
      Some {| filter := filter st;
              pipelineContext := option_map reportReviewUpdated (pipelineContext st) |}
  | ClickReapplyFilter =>
      if rendersToast st
      then Some {| filter := filter st;
                   pipelineContext := option_map onCallToActionClick (pipelineContext st) |}
      else None
  end.

(** The invalidation state read off the pipeline context. *)
Definition dirty (st : State) : bool :=
  match pipelineContext st with
  | Some c => showReviewUpdated c
  | None => false
  end.

Definition appliedRevision (st : State) : Z :=
  match pipelineContext st with
  | Some c => reviewRevision c
  | None => 0
  end.

End Viewer.

(** ** States used as examples *)
Module Examples.

Definition noFilter : IFilterState := {| Keywords := None; Discussion := None |}.

(** The pane after the user, with no filter set and no [user] given, has
    selected the first discussion of the store and typed [pending] in the
    comment box. *)
Definition typing (pending : string) : ViewerDiscussion.State :=
  {| ViewerDiscussion.discussions := ViewerDiscussion.store_discussions;
     ViewerDiscussion.filterState := noFilter;
     ViewerDiscussion.user := None;
     ViewerDiscussion.selectedDiscussion := Some 0%nat;
     ViewerDiscussion.details :=
       {| ViewerDiscussion.showAll := false;
          ViewerDiscussion.newComment := pending;
          ViewerDiscussion.newCommentError := negb (JS.truthy pending) |} |}.

End Examples.

(** ** Further members of the discussion pane *)
Module DiscussionMore.

(** Whether every code unit of a string passes a test. *)
Fixpoint allChars (P : ascii -> bool) (s : string) : bool :=
  match s with
  | EmptyString => true
  | String c s' => P c && allChars P s'
  end.

(** The local [keywords] of [filteredDiscussions] for a keyword filter of
    value [value]:
    [value.toLowerCase().split(/\s+/).filter(part => part)]. *)
Definition keywordTokens (value : string) : list string :=
  List.filter JS.truthy (JS.split_ws (JS.toLowerCase value)).

(** A filter state with its keyword query put in lower case. *)
Definition lowerQuery (filterState : IFilterState) : IFilterState :=
  {| Keywords := option_map JS.toLowerCase (Keywords filterState);
     Discussion := Discussion filterState |}.

(** A discussion with its signature put in lower case. *)
Definition lowerSignature (thread : ViewerDiscussion.DiscussionItem)
  : ViewerDiscussion.DiscussionItem :=
  {| ViewerDiscussion.disposition := ViewerDiscussion.disposition thread;
     ViewerDiscussion.comments := ViewerDiscussion.comments thread;
     ViewerDiscussion.keywords := JS.toLowerCase (ViewerDiscussion.keywords thread);
     ViewerDiscussion.status := ViewerDiscussion.status thread |}.

(** Typing a text in the comment box and pressing Enter, once for each text
    with the time of its key press. *)
Definition postEvents (posts : list (string * Z)) : list ViewerDiscussion.Event :=
  flat_map (fun post => [ ViewerDiscussion.ChangeNewComment (fst post);
                          ViewerDiscussion.KeyPress "Enter" (snd post) ]) posts.

End DiscussionMore.

(** ** Further members of the viewer *)
Module ViewerMore.



(** Truthiness of a number and of an optional string. *)
Definition truthyNumber (n : Z) : bool := negb (n =? 0).

Definition truthyKeywords (filterKeywords : option string) : bool :=
  match filterKeywords with
  | Some value => JS.truthy value
  | None => false
  end.

(** One [RunCard] of the near element, with its React key. *)
Record RunCard {Run : Type} := {
  key : nat;
  runStore : Viewer.RunStore Run;
  index : nat;
  runCount : nat
}.
Arguments RunCard : clear implicits.

(** What [nearElement] of [render] is: null (read as loading), the run
    cards, or the "No results found" card. *)
Inductive NearElement {Run : Type} :=
| Loading
| Cards (cards : list (RunCard Run))
| ZeroData.
Arguments NearElement : clear implicits.

(** [nearElement] of [render], from the filter state read at the top of
    [render] and the value of [runStoresSorted]. *)
Definition nearElement {Run : Type}
    (filteredCount : IFilterState -> Viewer.RunStore Run -> Z)
    (filterState : IFilterState) (runStoresSorted : list (Viewer.RunStore Run))
  : NearElement Run :=
  let filterKeywords := Keywords filterState in
  if (length runStoresSorted =? 0)%nat then Loading
  else
    if negb (truthyKeywords filterKeywords) ||
       truthyNumber (fold_left (fun total run => total + filteredCount filterState run)
                               runStoresSorted 0)
    then Cards (imap (fun index run =>
                        {| key := Viewer.logIndex run; runStore := run;
                           index := index; runCount := length runStoresSorted |})
                     (List.filter
                        (fun run => negb (truthyKeywords filterKeywords) ||
                                    truthyNumber (filteredCount filterState run))
                        runStoresSorted))
    else ZeroData.

(** A sequence of events of the prompt, each one possible where it
    happens. *)
Fixpoint run (st : Viewer.State) (evs : list Viewer.Event) : option Viewer.State :=
  match evs with
  | [] => Some st
  | ev :: evs' =>
      match Viewer.step st ev with
      | Some st' => run st' evs'
      | None => None
      end
  end.

(** How many times "Re-apply Filter" is clicked in a sequence of events. *)
Definition reapplyClicks (evs : list Viewer.Event) : nat :=
  length (List.filter (fun ev => match ev with
                                 | Viewer.ClickReapplyFilter => true
                                 | _ => false
                                 end) evs).

End ViewerMore.

(* ===================================================================== *)
(** * Part II: properties                                                 *)
(* ===================================================================== *)

(** ** The stable sort *)

Lemma insert_sorted_Permutation {A} (cmp : A -> A -> Z) x l :
  JS.insert_sorted cmp x l ≡ₚ x :: l.
Proof.
  induction l as [|y l IH]; simpl; [reflexivity|].
  destruct (cmp x y <=? 0); [reflexivity|].
  rewrite IH. apply Permutation_swap.
Qed.

Lemma sort_Permutation {A} (cmp : A -> A -> Z) l : JS.sort cmp l ≡ₚ l.
Proof.
  induction l as [|x l IH]; simpl; [reflexivity|].
  rewrite insert_sorted_Permutation. now rewrite IH.
Qed.

Lemma sort_length {A} (cmp : A -> A -> Z) l : length (JS.sort cmp l) = length l.
Proof. apply Permutation_length, sort_Permutation. Qed.

(** A class of elements that the comparator never puts strictly after one
    another keeps its order of arrival. *)
Lemma insert_sorted_filter {A} (cmp : A -> A -> Z) (P : A -> bool) x l :
  (forall a b, P a = true -> P b = true -> cmp a b <= 0) ->
  List.filter P (JS.insert_sorted cmp x l) = List.filter P (x :: l).
Proof.
  intros HP. induction l as [|y l IH]; [reflexivity|].
  cbn [JS.insert_sorted].
  destruct (cmp x y <=? 0) eqn:E; [reflexivity|].
  apply Z.leb_gt in E.
  cbn [List.filter] in *. rewrite IH.
  destruct (P x) eqn:Px, (P y) eqn:Py; try reflexivity.
  specialize (HP x y Px Py). lia.
Qed.

Lemma sort_filter {A} (cmp : A -> A -> Z) (P : A -> bool) l :
  (forall a b, P a = true -> P b = true -> cmp a b <= 0) ->
  List.filter P (JS.sort cmp l) = List.filter P l.
Proof.
  intros HP. induction l as [|x l IH]; [reflexivity|].
  cbn [JS.sort foldr]. fold (JS.sort cmp l).
  rewrite insert_sorted_filter by exact HP.
  cbn [List.filter]. now rewrite IH.
Qed.

Lemma insert_sorted_StronglySorted {A} (cmp : A -> A -> Z) x l :
  JS.Consistent cmp ->
  StronglySorted (fun a b => cmp a b <= 0) l ->
  StronglySorted (fun a b => cmp a b <= 0) (JS.insert_sorted cmp x l).
Proof.
  intros HC. induction l as [|y l IH]; intros Hs; cbn [JS.insert_sorted].
  - constructor; [constructor|constructor].
  - apply StronglySorted_inv in Hs as [Hl Hy].
    destruct (cmp x y <=? 0) eqn:E.
    + apply Z.leb_le in E. constructor.
      * now constructor.
      * constructor; [exact E|].
        rewrite List.Forall_forall in Hy |- *.
        intros z Hz. eapply (JS.cmp_trans cmp HC); [exact E|]. now apply Hy.
    + apply Z.leb_gt in E. constructor; [now apply IH|].
      rewrite List.Forall_forall in Hy |- *.
      intros z Hz.
      apply (Permutation_in _ (insert_sorted_Permutation cmp x l)) in Hz.
      destruct Hz as [<-|Hz]; [|now apply Hy].
      apply (JS.cmp_flip cmp HC) in E. lia.
Qed.

Lemma sort_StronglySorted {A} (cmp : A -> A -> Z) l :
  JS.Consistent cmp ->
  StronglySorted (fun a b => cmp a b <= 0) (JS.sort cmp l).
Proof.
  intros HC. induction l as [|x l IH]; cbn [JS.sort foldr].
  - constructor.
  - now apply insert_sorted_StronglySorted.
Qed.

(** Under a consistent comparator there is one sorted and stable
    arrangement only, so that [JS.sort] is what every stable sort returns. *)
Lemma sorted_stable_unique {A} (cmp : A -> A -> Z) :
  JS.Consistent cmp ->
  forall l1 l2,
    StronglySorted (fun a b => cmp a b <= 0) l1 ->
    StronglySorted (fun a b => cmp a b <= 0) l2 ->
    (forall x, List.filter (fun y => cmp y x =? 0) l1 =
               List.filter (fun y => cmp y x =? 0) l2) ->
    l1 = l2.
Proof.
  intros HC.
  assert (Hrefl : forall a, (cmp a a =? 0) = true).
  { intros a. apply Z.eqb_eq, (JS.cmp_refl cmp HC). }
  induction l1 as [|a l1 IH]; intros [|b l2] H1 H2 Hf.
  - reflexivity.
  - specialize (Hf b). cbn in Hf. rewrite Hrefl in Hf. discriminate.
  - specialize (Hf a). cbn in Hf. rewrite Hrefl in Hf. discriminate.
  - apply StronglySorted_inv in H1 as [H1 Ha].
    apply StronglySorted_inv in H2 as [H2 Hb].
    rewrite List.Forall_forall in Ha, Hb.
    assert (cmp b a <= 0) as Hba.
    { assert (In a (List.filter (fun y => cmp y a =? 0) (b :: l2))) as Hin.
      { rewrite <- Hf. cbn. rewrite Hrefl. now left. }
      apply filter_In in Hin as [[->|Hin] _].
      - rewrite (JS.cmp_refl cmp HC). lia.
      - now apply Hb. }
    assert (cmp a b <= 0) as Hab.
    { assert (In b (List.filter (fun y => cmp y b =? 0) (a :: l1))) as Hin.
      { rewrite Hf. cbn. rewrite Hrefl. now left. }
      apply filter_In in Hin as [[->|Hin] _].
      - rewrite (JS.cmp_refl cmp HC). lia.
      - now apply Ha. }
    assert (cmp b a = 0) as Hz.
    { destruct (Z.eq_dec (cmp b a) 0) as [|Hne]; [assumption|].
      assert (cmp b a < 0) as Hlt by lia.
      apply (JS.cmp_flip cmp HC) in Hlt. lia. }
    assert (a = b) as <-.
    { specialize (Hf a). cbn in Hf. rewrite Hrefl in Hf.
      apply Z.eqb_eq in Hz. rewrite Hz in Hf. congruence. }
    f_equal. apply IH; [assumption|assumption|].
    intros x. specialize (Hf x). cbn in Hf.
    destruct (cmp a x =? 0); congruence.
Qed.

Lemma sort_unique {A} (cmp : A -> A -> Z) l l' :
  JS.Consistent cmp ->
  StronglySorted (fun a b => cmp a b <= 0) l' ->
  (forall x, List.filter (fun y => cmp y x =? 0) l' =
             List.filter (fun y => cmp y x =? 0) l) ->
  l' = JS.sort cmp l.
Proof.
  intros HC Hs Hf. apply (sorted_stable_unique cmp HC); [exact Hs| |].
  - now apply sort_StronglySorted.
  - intros x. rewrite Hf. symmetry. apply sort_filter.
    intros a b Ha Hb. apply Z.eqb_eq in Ha, Hb.
    apply (JS.cmp_trans cmp HC _ x); [lia|].
    destruct (Z.lt_trichotomy (cmp x b) 0) as [H|[H|H]]; [lia|lia|].
    apply (JS.cmp_flip cmp HC) in H. lia.
Qed.

(** ** Comparison by code units is a consistent comparator *)

Lemma String_compare_refl s : String.compare s s = Eq.
Proof.
  induction s as [|c s IH]; [reflexivity|]. simpl.
  unfold Ascii.compare. now rewrite N.compare_refl.
Qed.

Lemma String_compare_le_trans a :
  forall b c, String.compare a b <> Gt -> String.compare b c <> Gt ->
              String.compare a c <> Gt.
Proof.
  induction a as [|x a IH]; intros [|y b] [|z c]; simpl; try congruence.
  unfold Ascii.compare.
  destruct (N.compare_spec (N_of_ascii x) (N_of_ascii y)) as [Exy|Lxy|Gxy];
    destruct (N.compare_spec (N_of_ascii y) (N_of_ascii z)) as [Eyz|Lyz|Gyz];
    try congruence; intros Hab Hbc.
  - rewrite Exy, Eyz, N.compare_refl. now apply (IH b c).
  - rewrite Exy. now apply N.compare_lt_iff in Lyz as ->.
  - rewrite <- Eyz. now apply N.compare_lt_iff in Lxy as ->.
  - assert (N_of_ascii x < N_of_ascii z)%N as H by lia.
    now apply N.compare_lt_iff in H as ->.
Qed.

Lemma compareCodeUnits_Consistent : JS.Consistent JS.compareCodeUnits.
Proof.
  unfold JS.compareCodeUnits. split.
  - intros a. now rewrite String_compare_refl.
  - intros a b. rewrite (String.compare_antisym b a).
    destruct (String.compare a b); simpl; lia.
  - intros a b c Hab Hbc.
    pose proof (String_compare_le_trans a b c) as H.
    destruct (String.compare a b), (String.compare b c), (String.compare a c);
      try lia; exfalso; apply H; congruence.
Qed.

(** ** Ranking of the run stores *)

Lemma highestCountFirst_Consistent {Run}
    (filteredCount : IFilterState -> Viewer.RunStore Run -> Z) filterState :
  JS.Consistent (Viewer.highestCountFirst filteredCount filterState).
Proof. unfold Viewer.highestCountFirst. split; intros; lia. Qed.

(** C5.  Ranking (the sort of [runStoresSorted], comparator "highest count
    first") returns, for every sequence of run stores and every filter state,
    a rearrangement of the sequence in which the filtered counts never
    increase, and in which the run stores of one and the same filtered count
    stand in the order they had in the input.  Run stores with the counts
    3, 1, 3, 0 come out as 3, 3, 1, 0, the first 3 of the input before the
    second.  [runStoresSorted] is that ranking of [runStores]. *)
Theorem rank_descending_and_stable :
  forall (Run : Type) (filteredCount : IFilterState -> Viewer.RunStore Run -> Z)
         (filterState : IFilterState) (aggregates : list (Viewer.RunStore Run)),
    let rank := Viewer.sorted (Viewer.highestCountFirst filteredCount filterState) in
    rank aggregates ≡ₚ aggregates /\
    StronglySorted
      (fun a b => filteredCount filterState b <= filteredCount filterState a)
      (rank aggregates) /\
    (forall count,
        List.filter (fun a => filteredCount filterState a =? count) (rank aggregates) =
        List.filter (fun a => filteredCount filterState a =? count) aggregates) /\
    (forall driverName localeCompare props,
        Viewer.runStoresSorted driverName filteredCount localeCompare props filterState =
        rank (Viewer.runStores driverName localeCompare props (Viewer.logs props))) /\
    (let store (i : nat) (count : Z) :=
       {| Viewer.run := count; Viewer.logIndex := i;
          Viewer.storeHideBaseline := None; Viewer.storeShowAge := None |} in
     map (fun a => (Viewer.logIndex a, Viewer.run a))
         (Viewer.sorted (Viewer.highestCountFirst (fun _ a => Viewer.run a) filterState)
                        [store 0%nat 3; store 1%nat 1; store 2%nat 3; store 3%nat 0]) =
     [(0%nat, 3); (2%nat, 3); (1%nat, 1); (3%nat, 0)]).
Proof.
  intros Run filteredCount filterState aggregates rank. subst rank.
  unfold Viewer.sorted. repeat split.
  - apply sort_Permutation.
  - pose proof (sort_StronglySorted _ aggregates
                  (highestCountFirst_Consistent filteredCount filterState)) as H.
    eapply StronglySorted_ind with (P := StronglySorted _); [| |exact H].
    + constructor.
    + intros a l _ IH Ha. constructor; [exact IH|].
      eapply List.Forall_impl; [|exact Ha].
      intros b Hb. unfold Viewer.highestCountFirst in Hb. simpl in Hb. lia.
  - intros count. apply sort_filter.
    intros a b Ha Hb. apply Z.eqb_eq in Ha, Hb.
    unfold Viewer.highestCountFirst. lia.
Qed.

(** ** Construction of the run stores *)

Lemma newRunStores_lookup {Run} (props : Viewer.ViewerProps Run) runs s :
  s ∈ Viewer.newRunStores props runs -> runs !! Viewer.logIndex s = Some (Viewer.run s).
Proof.
  unfold Viewer.newRunStores. intros H.
  apply elem_of_lookup_imap in H as (i & r & -> & Hr). exact Hr.
Qed.

Lemma newRunStores_logIndex {Run} (props : Viewer.ViewerProps Run) runs :
  map Viewer.logIndex (Viewer.newRunStores props runs) = seq 0 (length runs).
Proof.
  unfold Viewer.newRunStores.
  change (map Viewer.logIndex) with (fmap (M := list) (@Viewer.logIndex Run)).
  rewrite fmap_imap. unfold compose. simpl.
  rewrite imap_seq_0. apply list_fmap_id.
Qed.

Lemma newRunStores_run {Run} (props : Viewer.ViewerProps Run) runs :
  map Viewer.run (Viewer.newRunStores props runs) = runs.
Proof.
  unfold Viewer.newRunStores.
  change (map Viewer.run) with (fmap (M := list) (@Viewer.run Run)).
  rewrite fmap_imap. unfold compose. simpl.
  change (imap (fun _ r => r) runs) with (imap (const id) runs).
  rewrite imap_const. apply list_fmap_id.
Qed.

(** C4, as the code has it.  For every log collection and every consistent
    collation, [runStores] builds one run store for each run of the logs of
    version 2.1.0, holding the run and its position among those runs in the
    order of the logs ([logIndex]); the sequence it returns is those run
    stores sorted by driver name, run stores whose driver names compare equal
    staying in the order of the logs.  Without a log collection the sequence
    is empty. *)
Theorem runStores_one_per_run_sorted_by_driver_name :
  forall (Run : Type) (driverName : Viewer.RunStore Run -> string)
         (localeCompare : string -> string -> Z)
         (props : Viewer.ViewerProps Run) (logs : list (Viewer.Log Run)),
    JS.Consistent localeCompare ->
    let stores := Viewer.runStores driverName localeCompare props (Some logs) in
    let runs := Viewer.qualifyingRuns logs in
    length stores = length runs /\
    stores ≡ₚ Viewer.newRunStores props runs /\
    map Viewer.run (Viewer.newRunStores props runs) = runs /\
    map Viewer.logIndex (Viewer.newRunStores props runs) = seq 0 (length runs) /\
    (forall s, s ∈ stores -> runs !! Viewer.logIndex s = Some (Viewer.run s)) /\
    StronglySorted
      (fun a b => localeCompare (driverName a) (driverName b) <= 0) stores /\
    (forall name,
        List.filter (fun s => localeCompare (driverName s) name =? 0) stores =
        List.filter (fun s => localeCompare (driverName s) name =? 0)
                    (Viewer.newRunStores props runs)) /\
    Viewer.runStores driverName localeCompare props None = [].
Proof.
  intros Run driverName localeCompare props logs HC stores runs.
  assert (JS.Consistent (Viewer.byDriverName driverName localeCompare)) as HD.
  { unfold Viewer.byDriverName. destruct HC as [H1 H2 H3].
    split; intros; eauto. }
  subst stores runs. unfold Viewer.runStores. cbv zeta.
  repeat split.
  - rewrite sort_length. unfold Viewer.newRunStores. apply length_imap.
  - apply sort_Permutation.
  - apply newRunStores_run.
  - apply newRunStores_logIndex.
  - intros s Hs. apply (newRunStores_lookup props).
    now rewrite <- (sort_Permutation (Viewer.byDriverName driverName localeCompare)).
  - apply (sort_StronglySorted _ _ HD).
  - intros name. apply sort_filter.
    intros a b Ha Hb. apply Z.eqb_eq in Ha, Hb. unfold Viewer.byDriverName.
    destruct HC as [H1 H2 H3].
    apply (H3 _ name); [lia|].
    destruct (Z.lt_trichotomy (localeCompare name (driverName b)) 0) as [H|[H|H]];
      [lia|lia|]. apply H2 in H. lia.
Qed.

(** The claim C4 as it is worded asks for the order of the logs.  Two runs
    whose drivers are named "b" and "a", in that order in one log of version
    2.1.0, come out as "a", "b". *)
Lemma runStores_not_in_encounter_order :
  ~ (map Viewer.run
       (Viewer.runStores (fun s : Viewer.RunStore string => Viewer.run s)
          JS.compareCodeUnits
          {| Viewer.logs := None; Viewer.hideBaseline := None; Viewer.showAge := None |}
          (Some [ {| Viewer.version := "2.1.0"; Viewer.runs := ["b"; "a"] |} ])) =
     Viewer.qualifyingRuns [ {| Viewer.version := "2.1.0"; Viewer.runs := ["b"; "a"] |} ]).
Proof. vm_compute. discriminate. Qed.

Lemma runStores_one_per_run_witness :
  JS.Consistent JS.compareCodeUnits /\
  length
    (Viewer.runStores (fun s : Viewer.RunStore string => Viewer.run s)
       JS.compareCodeUnits
       {| Viewer.logs := None; Viewer.hideBaseline := None; Viewer.showAge := None |}
       (Some [ {| Viewer.version := "2.1.0"; Viewer.runs := ["b"; "a"] |};
               {| Viewer.version := "2.0.0"; Viewer.runs := ["c"] |} ])) =
  length
    (Viewer.qualifyingRuns
       [ {| Viewer.version := "2.1.0"; Viewer.runs := ["b"; "a"] |};
         {| Viewer.version := "2.0.0"; Viewer.runs := ["c"] |} ]).
Proof.
  split.
  - exact compareCodeUnits_Consistent.
  - exact (proj1 (runStores_one_per_run_sorted_by_driver_name string
                    (fun s => Viewer.run s) JS.compareCodeUnits _ _
                    compareCodeUnits_Consistent)).
Defined.

(** ** The "Some results updated" prompt *)

(** C7.  In every state whose dirty flag is set and in which the toast is on
    the page, "Re-apply Filter" can be clicked, and the click leaves the
    dirty flag cleared and the applied revision greater by exactly one; the
    handler does so for every pipeline context.  No event of the viewer makes
    the applied revision smaller. *)
Theorem reapply_clears_dirty_and_increments_revision :
  (forall st,
      Viewer.dirty st = true ->
      Viewer.rendersToast st = true ->
      exists st',
        Viewer.step st Viewer.ClickReapplyFilter = Some st' /\
        Viewer.dirty st' = false /\
        Viewer.appliedRevision st' = Viewer.appliedRevision st + 1) /\
  (forall c,
      Viewer.showReviewUpdated (Viewer.onCallToActionClick c) = false /\
      Viewer.reviewRevision (Viewer.onCallToActionClick c) = Viewer.reviewRevision c + 1) /\
  (forall st ev st',
      Viewer.step st ev = Some st' ->
      Viewer.appliedRevision st <= Viewer.appliedRevision st').
Proof.
  split; [|split].
  - intros [f [c|]] Hd Hr; [|discriminate].
    unfold Viewer.step. rewrite Hr. eexists. split; [reflexivity|].
    split; reflexivity.
  - intros c. split; reflexivity.
  - intros st ev st' H. unfold Viewer.step in H.
    destruct ev; [| |destruct (Viewer.rendersToast st); [|discriminate]];
      injection H as <-; unfold Viewer.appliedRevision;
      destruct (Viewer.pipelineContext st); simpl; lia.
Qed.

Lemma reapply_witness :
  exists st',
    Viewer.step
      {| Viewer.filter := {| Keywords := None; Discussion := None |};
         Viewer.pipelineContext :=
           Some {| Viewer.reviews := Some tt; Viewer.reviewRevision := 4;
                   Viewer.showReviewUpdated := true |} |}
      Viewer.ClickReapplyFilter = Some st' /\
    Viewer.dirty st' = false /\
    Viewer.appliedRevision st' = 4 + 1.
Proof.
  exact (proj1 reapply_clears_dirty_and_increments_revision
           {| Viewer.filter := {| Keywords := None; Discussion := None |};
              Viewer.pipelineContext :=
                Some {| Viewer.reviews := Some tt; Viewer.reviewRevision := 4;
                        Viewer.showReviewUpdated := true |} |}
           eq_refl eq_refl).
Defined.

(** C8.  In every state whose dirty flag is set, a change of the filter
    state is followed by a state whose dirty flag is cleared and whose
    applied revision is the one before the change. *)
Theorem filter_change_clears_dirty_keeps_revision :
  forall st newState,
    Viewer.dirty st = true ->
    exists st',
      Viewer.step st (Viewer.FilterChanged newState) = Some st' /\
      Viewer.dirty st' = false /\
      Viewer.appliedRevision st' = Viewer.appliedRevision st /\
      Viewer.filter st' = newState.
Proof.
  intros [f [c|]] newState Hd; [|discriminate].
  eexists. split; [reflexivity|]. repeat split.
Qed.

Lemma filter_change_witness :
  exists st',
    Viewer.step
      {| Viewer.filter := {| Keywords := None; Discussion := None |};
         Viewer.pipelineContext :=
           Some {| Viewer.reviews := Some tt; Viewer.reviewRevision := 7;
                   Viewer.showReviewUpdated := true |} |}
      (Viewer.FilterChanged {| Keywords := Some "rule01"; Discussion := None |}) = Some st' /\
    Viewer.dirty st' = false /\
    Viewer.appliedRevision st' = 7 /\
    Viewer.filter st' = {| Keywords := Some "rule01"; Discussion := None |}.
Proof.
  exact (filter_change_clears_dirty_keeps_revision
           {| Viewer.filter := {| Keywords := None; Discussion := None |};
              Viewer.pipelineContext :=
                Some {| Viewer.reviews := Some tt; Viewer.reviewRevision := 7;
                        Viewer.showReviewUpdated := true |} |}
           {| Keywords := Some "rule01"; Discussion := None |}
           eq_refl).
Defined.

(** ** The discussion pane *)

Lemma run_reachable isMatch evs :
  forall st st',
    ViewerDiscussion.reachable isMatch st ->
    ViewerDiscussion.run isMatch st evs = Some st' ->
    ViewerDiscussion.reachable isMatch st'.
Proof.
  induction evs as [|ev evs IH]; intros st st' Hr H; simpl in H.
  - now injection H as <-.
  - destruct (ViewerDiscussion.step isMatch st ev) as [st1|] eqn:E; [|discriminate].
    eapply IH; [|exact H]. eapply ViewerDiscussion.reachable_step; eauto.
Qed.

(** The selected discussion is always one of the store. *)
Lemma selected_in_store isMatch st :
  ViewerDiscussion.reachable isMatch st ->
  forall ref, ViewerDiscussion.selectedDiscussion st = Some ref ->
              (ref < length (ViewerDiscussion.discussions st))%nat.
Proof.
  induction 1 as [fs u|st ev st' Hr IH Hstep]; intros ref Hsel.
  - discriminate.
  - destruct ev; simpl in Hstep.
    + injection Hstep as <-. now apply IH.
    + destruct (ViewerDiscussion.selectedDiscussion st); [|discriminate].
      injection Hstep as <-. discriminate.
    + destruct (ViewerDiscussion.selectedDiscussion st); [discriminate|].
      destruct (Keywords (ViewerDiscussion.filterState st)); [|discriminate].
      destruct (ViewerDiscussion.hasExactKeywordMatch _ _ _); [discriminate|].
      injection Hstep as <-. simpl in *. injection Hsel as <-.
      rewrite length_app. simpl. lia.
    + destruct (ViewerDiscussion.selectedDiscussion st) eqn:Es; [discriminate|].
      unfold ViewerDiscussion.rendersHeader in Hstep. rewrite Es in Hstep.
      destruct (ViewerDiscussion.discussions st !! ref0) eqn:El;
        [|discriminate].
      destruct (ViewerDiscussion.isVisible _ _ _); [|discriminate].
      injection Hstep as <-. simpl in *. injection Hsel as <-.
      now apply lookup_lt_Some in El.
    + destruct (_ && _); [|discriminate]. injection Hstep as <-. simpl in *.
      rewrite length_alter. now apply IH.
    + destruct (_ && _); [|discriminate]. injection Hstep as <-. simpl in *.
      rewrite length_alter. now apply IH.
    + destruct (ViewerDiscussion.selectedDiscussion st) eqn:Es; [|discriminate].
      destruct (ViewerDiscussion.discussions st !! n); [|discriminate].
      destruct (_ && _); [|discriminate]. injection Hstep as <-. simpl in *.
      apply IH. congruence.
    + destruct (ViewerDiscussion.selectedDiscussion st) eqn:Es; [|discriminate].
      injection Hstep as <-. simpl in *. apply IH. congruence.
    + destruct (ViewerDiscussion.selectedDiscussion st) eqn:Es; [|discriminate].
      injection Hstep as <-. unfold ViewerDiscussion.onKeyPress in *.
      destruct (negb _); simpl in *.
      * apply IH. congruence.
      * rewrite length_alter. apply IH. congruence.
Qed.

(** A visible discussion whose signature is the query, case apart, makes
    [hasExactKeywordMatch] true. *)
Lemma visible_match_hasExactKeywordMatch
    (isMatch : string -> list string -> bool) filterState discussions query thread :
  Keywords filterState = Some query ->
  In thread (ViewerDiscussion.filteredDiscussions isMatch filterState discussions) ->
  JS.toLowerCase (ViewerDiscussion.keywords thread) = JS.toLowerCase query ->
  ViewerDiscussion.hasExactKeywordMatch isMatch filterState discussions = true.
Proof.
  intros Hq Hin Heq. unfold ViewerDiscussion.hasExactKeywordMatch. rewrite Hq.
  destruct (negb (JS.truthy query)); [reflexivity|].
  apply existsb_exists. exists thread. split; [exact Hin|].
  now apply String.eqb_eq.
Qed.

(** C9, as the code has it.  [hasExactKeywordMatch] is true exactly when
    there is no keyword filter, or its value is empty, or the signature of
    some filtered (visible) discussion, put in lower case, equals the value
    put in lower case. *)
Theorem hasExactKeywordMatch_iff :
  forall (isMatch : string -> list string -> bool) filterState discussions,
    ViewerDiscussion.hasExactKeywordMatch isMatch filterState discussions = true <->
    (Keywords filterState = None \/
     Keywords filterState = Some EmptyString \/
     exists query discussion,
       Keywords filterState = Some query /\
       In discussion (ViewerDiscussion.filteredDiscussions isMatch filterState discussions) /\
       JS.toLowerCase (ViewerDiscussion.keywords discussion) = JS.toLowerCase query).
Proof.
  intros isMatch filterState discussions.
  unfold ViewerDiscussion.hasExactKeywordMatch, JS.truthy.
  destruct (Keywords filterState) as [query|]; [|intuition].
  rewrite negb_involutive.
  destruct (String.eqb_spec query EmptyString) as [->|Hne].
  - intuition.
  - rewrite existsb_exists. split.
    + intros (d & Hin & Heq). right. right. exists query, d.
      apply String.eqb_eq in Heq. auto.
    + intros [H|[H|(q & d & Hq & Hin & Heq)]]; try congruence.
      injection Hq as <-. exists d. split; [exact Hin|]. now apply String.eqb_eq.
Qed.

(** The claim C9 as it is worded compares the signature itself with the
    query in lower case.  With the keyword filter "RULE01" over the store the
    module starts with, the discussion "RULE01" is visible and
    [hasExactKeywordMatch] is true, while no visible signature equals
    "rule01". *)
Lemma hasExactKeywordMatch_lowers_the_signature :
  ~ (ViewerDiscussion.hasExactKeywordMatch ViewerDiscussion.isMatch
       {| Keywords := Some "RULE01"; Discussion := None |}
       ViewerDiscussion.store_discussions = true <->
     ("RULE01" = EmptyString \/
      exists discussion,
        In discussion
           (ViewerDiscussion.filteredDiscussions ViewerDiscussion.isMatch
              {| Keywords := Some "RULE01"; Discussion := None |}
              ViewerDiscussion.store_discussions) /\
        ViewerDiscussion.keywords discussion = JS.toLowerCase "RULE01")).
Proof.
  intros [H _]. destruct (H eq_refl) as [H1|(d & Hin & Hk)]; [discriminate|].
  apply filter_In in Hin as [Hin _].
  simpl in Hin. destruct Hin as [<-|[<-|[<-|[]]]]; discriminate.
Qed.

(** C1, as the code has it.  Starting a discussion never fails with an
    error; the action is kept off the page instead.  In every state in which
    some visible discussion has the signature of the keyword filter, both put
    in lower case, "Start new discussion" is not on the page: no handler
    runs, so no discussion is added and the selection stays as it is. *)
Theorem start_new_discussion_not_offered_on_visible_match :
  forall (isMatch : string -> list string -> bool) st query thread,
    Keywords (ViewerDiscussion.filterState st) = Some query ->
    In thread (ViewerDiscussion.filteredDiscussions isMatch
                 (ViewerDiscussion.filterState st) (ViewerDiscussion.discussions st)) ->
    JS.toLowerCase (ViewerDiscussion.keywords thread) = JS.toLowerCase query ->
    ViewerDiscussion.step isMatch st ViewerDiscussion.ClickStartNewDiscussion = None.
Proof.
  intros isMatch st query thread Hq Hin Heq.
  assert (ViewerDiscussion.hasExactKeywordMatch isMatch
            (ViewerDiscussion.filterState st) (ViewerDiscussion.discussions st) = true) as H.
  { now apply (visible_match_hasExactKeywordMatch isMatch _ _ query thread). }
  unfold ViewerDiscussion.step.
  destruct (ViewerDiscussion.selectedDiscussion st); [reflexivity|].
  rewrite Hq, H. reflexivity.
Qed.

Lemma start_new_discussion_not_offered_witness :
  ViewerDiscussion.step ViewerDiscussion.isMatch
    (ViewerDiscussion.initial {| Keywords := Some "rule01"; Discussion := None |} None)
    ViewerDiscussion.ClickStartNewDiscussion = None.
Proof.
  apply (start_new_discussion_not_offered_on_visible_match ViewerDiscussion.isMatch
           (ViewerDiscussion.initial {| Keywords := Some "rule01"; Discussion := None |} None)
           "rule01"
           (ViewerDiscussion.newDiscussionItem "RULE01" "Open"
              (ViewerDiscussion.comments
                 (nth 0 ViewerDiscussion.store_discussions
                      (ViewerDiscussion.newDiscussionItem EmptyString EmptyString []))))).
  - reflexivity.
  - vm_compute. left. reflexivity.
  - reflexivity.
Defined.

(** The claim C1 as it is worded asks for a failure whenever a discussion
    with the signature exists.  With the status filter "Open" and the keyword
    filter "RULE01 RULE02", the closed discussion "RULE01 RULE02" of the
    store is hidden, "Start new discussion" is on the page, and the click
    adds a fourth discussion with that signature and selects it. *)
Lemma start_new_discussion_adds_over_hidden_thread :
  (exists thread,
      In thread ViewerDiscussion.store_discussions /\
      ViewerDiscussion.keywords thread = "RULE01 RULE02") /\
  exists st',
    ViewerDiscussion.step ViewerDiscussion.isMatch
      (ViewerDiscussion.initial
         {| Keywords := Some "RULE01 RULE02"; Discussion := Some ["Open"] |} None)
      ViewerDiscussion.ClickStartNewDiscussion = Some st' /\
    map ViewerDiscussion.keywords (ViewerDiscussion.discussions st') =
      ["RULE01"; "RULE01 RULE02"; "RULE01 RULE02 RULE03"; "RULE01 RULE02"] /\
    ViewerDiscussion.discussions st' <> ViewerDiscussion.store_discussions /\
    ViewerDiscussion.selectedDiscussion st' = Some 3%nat.
Proof.
  split.
  - eexists. split; [right; left; reflexivity|reflexivity].
  - eexists. split; [reflexivity|]. split; [reflexivity|]. split; [|reflexivity].
    intros H. apply (f_equal (@length _)) in H. discriminate.
Qed.

(** C3, on the code.  Over the store the module starts with, setting the
    status filter to "Open" and the keyword filter to "RULE01 RULE02" and then
    clicking "Start new discussion" leads to a store that holds the signature
    "RULE01 RULE02" twice: whatever [isMatch] is, a state with two discussions
    of one signature can be reached. *)
Theorem duplicate_signature_is_reachable :
  forall isMatch : string -> list string -> bool,
  exists st,
    ViewerDiscussion.run isMatch
      (ViewerDiscussion.initial {| Keywords := None; Discussion := None |} None)
      [ ViewerDiscussion.SetFilterState
          {| Keywords := Some "RULE01 RULE02"; Discussion := Some ["Open"] |};
        ViewerDiscussion.ClickStartNewDiscussion ] = Some st /\
    ViewerDiscussion.reachable isMatch st /\
    map ViewerDiscussion.keywords (ViewerDiscussion.discussions st) =
      ["RULE01"; "RULE01 RULE02"; "RULE01 RULE02 RULE03"; "RULE01 RULE02"] /\
    ~ NoDup (map ViewerDiscussion.keywords (ViewerDiscussion.discussions st)).
Proof.
  intros isMatch.
  assert (exists st,
    ViewerDiscussion.run isMatch
      (ViewerDiscussion.initial {| Keywords := None; Discussion := None |} None)
      [ ViewerDiscussion.SetFilterState
          {| Keywords := Some "RULE01 RULE02"; Discussion := Some ["Open"] |};
        ViewerDiscussion.ClickStartNewDiscussion ] = Some st /\
    map ViewerDiscussion.keywords (ViewerDiscussion.discussions st) =
      ["RULE01"; "RULE01 RULE02"; "RULE01 RULE02 RULE03"; "RULE01 RULE02"])
    as (st & Hrun & Hk).
  { cbn [ViewerDiscussion.run ViewerDiscussion.step ViewerDiscussion.initial
         ViewerDiscussion.selectedDiscussion ViewerDiscussion.filterState
         ViewerDiscussion.discussions Keywords].
    assert (ViewerDiscussion.hasExactKeywordMatch isMatch
              {| Keywords := Some "RULE01 RULE02"; Discussion := Some ["Open"] |}
              ViewerDiscussion.store_discussions = false) as ->.
    { unfold ViewerDiscussion.hasExactKeywordMatch,
        ViewerDiscussion.filteredDiscussions, ViewerDiscussion.isVisible.
      cbn -[JS.toLowerCase JS.split_ws].
      repeat match goal with
             | |- context [isMatch ?a ?b] => destruct (isMatch a b)
             end; reflexivity. }
    eexists. split; reflexivity. }
  exists st. split; [exact Hrun|]. split; [|split; [exact Hk|]].
  - eapply run_reachable; [apply ViewerDiscussion.reachable_initial|exact Hrun].
  - rewrite Hk. intros H.
    apply NoDup_cons in H as [_ H]. apply NoDup_cons in H as [H _].
    apply H. right. left.
Qed.

(** What Enter in the comment box does, whatever the pending text is. *)
Lemma onKeyPress_Enter isMatch st ref discussion now :
  ViewerDiscussion.selectedDiscussion st = Some ref ->
  ViewerDiscussion.discussions st !! ref = Some discussion ->
  let comment := {| ViewerDiscussion.who := JS.nullish (ViewerDiscussion.user st) "Anonymous";
                    ViewerDiscussion.when := now;
                    ViewerDiscussion.text :=
                      ViewerDiscussion.newComment (ViewerDiscussion.details st) |} in
  exists st',
    ViewerDiscussion.step isMatch st (ViewerDiscussion.KeyPress "Enter" now) = Some st' /\
    ViewerDiscussion.discussions st' !! ref =
      Some (ViewerDiscussion.pushComment comment discussion) /\
    length (ViewerDiscussion.discussions st') = length (ViewerDiscussion.discussions st) /\
    (forall other, other <> ref ->
       ViewerDiscussion.discussions st' !! other = ViewerDiscussion.discussions st !! other) /\
    ViewerDiscussion.newComment (ViewerDiscussion.details st') = EmptyString /\
    ViewerDiscussion.showAll (ViewerDiscussion.details st') =
      ViewerDiscussion.showAll (ViewerDiscussion.details st) /\
    ViewerDiscussion.newCommentError (ViewerDiscussion.details st') =
      ViewerDiscussion.newCommentError (ViewerDiscussion.details st) /\
    ViewerDiscussion.selectedDiscussion st' = ViewerDiscussion.selectedDiscussion st /\
    ViewerDiscussion.filterState st' = ViewerDiscussion.filterState st /\
    ViewerDiscussion.user st' = ViewerDiscussion.user st.
Proof.
  intros Hsel Hd comment. unfold ViewerDiscussion.step. rewrite Hsel.
  eexists. split; [reflexivity|]. cbn.
  split; [|split; [|split]].
  - rewrite list_lookup_alter_eq, Hd. reflexivity.
  - apply length_alter.
  - intros other Hne. apply list_lookup_alter_ne. congruence.
  - repeat split. exact Hsel.
Qed.

(** C2, as the code has it.  In every reachable state with a selected
    discussion, Enter in the comment box with a pending text that is not the
    empty string (a text of white space included) appends exactly one comment
    at the tail of the selected discussion, holding the pending text as it
    is, the time of the key press and the author; it clears the pending text
    and changes nothing else: the other discussions, the signature, status
    and disposition of the selected one, the selection, the filter and the
    remaining state of the comment box stay as they are. *)
Theorem post_comment_appends_pending_text :
  forall (isMatch : string -> list string -> bool) st ref now,
    ViewerDiscussion.reachable isMatch st ->
    ViewerDiscussion.selectedDiscussion st = Some ref ->
    ViewerDiscussion.newComment (ViewerDiscussion.details st) <> EmptyString ->
    exists st' discussion discussion',
      ViewerDiscussion.step isMatch st (ViewerDiscussion.KeyPress "Enter" now) = Some st' /\
      ViewerDiscussion.discussions st !! ref = Some discussion /\
      ViewerDiscussion.discussions st' !! ref = Some discussion' /\
      ViewerDiscussion.comments discussion' =
        (ViewerDiscussion.comments discussion ++
         [ {| ViewerDiscussion.who := JS.nullish (ViewerDiscussion.user st) "Anonymous";
              ViewerDiscussion.when := now;
              ViewerDiscussion.text :=
                ViewerDiscussion.newComment (ViewerDiscussion.details st) |} ])%list /\
      ViewerDiscussion.keywords discussion' = ViewerDiscussion.keywords discussion /\
      ViewerDiscussion.status discussion' = ViewerDiscussion.status discussion /\
      ViewerDiscussion.disposition discussion' = ViewerDiscussion.disposition discussion /\
      length (ViewerDiscussion.discussions st') = length (ViewerDiscussion.discussions st) /\
      (forall other, other <> ref ->
         ViewerDiscussion.discussions st' !! other =
         ViewerDiscussion.discussions st !! other) /\
      ViewerDiscussion.newComment (ViewerDiscussion.details st') = EmptyString /\
      ViewerDiscussion.showAll (ViewerDiscussion.details st') =
        ViewerDiscussion.showAll (ViewerDiscussion.details st) /\
      ViewerDiscussion.newCommentError (ViewerDiscussion.details st') =
        ViewerDiscussion.newCommentError (ViewerDiscussion.details st) /\
      ViewerDiscussion.selectedDiscussion st' = ViewerDiscussion.selectedDiscussion st /\
      ViewerDiscussion.filterState st' = ViewerDiscussion.filterState st /\
      ViewerDiscussion.user st' = ViewerDiscussion.user st.
Proof.
  intros isMatch st ref now Hr Hsel _.
  pose proof (selected_in_store isMatch st Hr ref Hsel) as Hlt.
  apply lookup_lt_is_Some_2 in Hlt as [discussion Hd].
  destruct (onKeyPress_Enter isMatch st ref discussion now Hsel Hd)
    as (st' & Hstep & Hd' & Hlen & Hother & Hrest).
  exists st', discussion, (ViewerDiscussion.pushComment
    {| ViewerDiscussion.who := JS.nullish (ViewerDiscussion.user st) "Anonymous";
       ViewerDiscussion.when := now;
       ViewerDiscussion.text :=
         ViewerDiscussion.newComment (ViewerDiscussion.details st) |} discussion).
  split; [exact Hstep|]. split; [exact Hd|]. split; [exact Hd'|].
  split; [reflexivity|]. split; [reflexivity|]. split; [reflexivity|].
  split; [reflexivity|]. split; [exact Hlen|]. split; [exact Hother|].
  exact Hrest.
Qed.

(** C10.  In every reachable state with a selected discussion and no [user]
    given to the component, Enter in the comment box appends to the selected
    discussion a comment whose author is "Anonymous". *)
Theorem anonymous_author_without_user :
  forall (isMatch : string -> list string -> bool) st ref now,
    ViewerDiscussion.reachable isMatch st ->
    ViewerDiscussion.user st = None ->
    ViewerDiscussion.selectedDiscussion st = Some ref ->
    exists st' discussion discussion' comment,
      ViewerDiscussion.step isMatch st (ViewerDiscussion.KeyPress "Enter" now) = Some st' /\
      ViewerDiscussion.discussions st !! ref = Some discussion /\
      ViewerDiscussion.discussions st' !! ref = Some discussion' /\
      ViewerDiscussion.comments discussion' =
        (ViewerDiscussion.comments discussion ++ [comment])%list /\
      ViewerDiscussion.who comment = "Anonymous".
Proof.
  intros isMatch st ref now Hr Hu Hsel.
  pose proof (selected_in_store isMatch st Hr ref Hsel) as Hlt.
  apply lookup_lt_is_Some_2 in Hlt as [discussion Hd].
  destruct (onKeyPress_Enter isMatch st ref discussion now Hsel Hd)
    as (st' & Hstep & Hd' & _).
  do 4 eexists. split; [exact Hstep|]. split; [exact Hd|]. split; [exact Hd'|].
  split; [reflexivity|]. simpl. now rewrite Hu.
Qed.

Lemma typing_reachable pending :
  ViewerDiscussion.reachable ViewerDiscussion.isMatch (Examples.typing pending).
Proof.
  apply (run_reachable ViewerDiscussion.isMatch
           [ViewerDiscussion.ClickDiscussion 0; ViewerDiscussion.ChangeNewComment pending]
           (ViewerDiscussion.initial Examples.noFilter None)).
  - apply ViewerDiscussion.reachable_initial.
  - reflexivity.
Qed.

Lemma post_comment_witness :
  ViewerDiscussion.newComment
    (ViewerDiscussion.details (Examples.typing "Looks fine to me")) <> EmptyString /\
  exists st' discussion discussion',
    ViewerDiscussion.step ViewerDiscussion.isMatch (Examples.typing "Looks fine to me")
      (ViewerDiscussion.KeyPress "Enter" 1700000000000) = Some st' /\
    ViewerDiscussion.discussions (Examples.typing "Looks fine to me") !! 0%nat =
      Some discussion /\
    ViewerDiscussion.discussions st' !! 0%nat = Some discussion' /\
    ViewerDiscussion.comments discussion' =
      (ViewerDiscussion.comments discussion ++
       [ {| ViewerDiscussion.who := "Anonymous";
            ViewerDiscussion.when := 1700000000000;
            ViewerDiscussion.text := "Looks fine to me" |} ])%list /\
    ViewerDiscussion.newComment (ViewerDiscussion.details st') = EmptyString.
Proof.
  split; [discriminate|].
  destruct (post_comment_appends_pending_text ViewerDiscussion.isMatch
              (Examples.typing "Looks fine to me") 0%nat 1700000000000
              (typing_reachable _) eq_refl ltac:(discriminate))
    as (st' & d & d' & H1 & H2 & H3 & H4 & _ & _ & _ & _ & _ & H5 & _).
  exists st', d, d'. repeat split; assumption.
Defined.

(** The claim C2 as it is worded asks that a text that is empty after
    trimming be refused.  With two spaces typed in the comment box of the
    first discussion, Enter appends a fifth comment to its four. *)
Lemma blank_comment_is_posted :
  ViewerDiscussion.reachable ViewerDiscussion.isMatch (Examples.typing "  ") /\
  JS.trim (ViewerDiscussion.newComment
             (ViewerDiscussion.details (Examples.typing "  "))) = EmptyString /\
  exists st' discussion discussion',
    ViewerDiscussion.step ViewerDiscussion.isMatch (Examples.typing "  ")
      (ViewerDiscussion.KeyPress "Enter" 1700000000000) = Some st' /\
    ViewerDiscussion.discussions (Examples.typing "  ") !! 0%nat = Some discussion /\
    ViewerDiscussion.discussions st' !! 0%nat = Some discussion' /\
    length (ViewerDiscussion.comments discussion) = 4%nat /\
    length (ViewerDiscussion.comments discussion') = 5%nat /\
    ViewerDiscussion.comments discussion' <> ViewerDiscussion.comments discussion.
Proof.
  split; [apply typing_reachable|]. split; [reflexivity|].
  do 3 eexists. split; [reflexivity|]. split; [reflexivity|].
  split; [reflexivity|]. split; [reflexivity|]. split; [reflexivity|].
  intros H. apply (f_equal (@length _)) in H. discriminate.
Qed.

Lemma anonymous_author_witness :
  exists st' discussion discussion' comment,
    ViewerDiscussion.step ViewerDiscussion.isMatch (Examples.typing "Agreed")
      (ViewerDiscussion.KeyPress "Enter" 1700000000000) = Some st' /\
    ViewerDiscussion.discussions (Examples.typing "Agreed") !! 0%nat = Some discussion /\
    ViewerDiscussion.discussions st' !! 0%nat = Some discussion' /\
    ViewerDiscussion.comments discussion' =
      (ViewerDiscussion.comments discussion ++ [comment])%list /\
    ViewerDiscussion.who comment = "Anonymous".
Proof.
  exact (anonymous_author_without_user ViewerDiscussion.isMatch
           (Examples.typing "Agreed") 0%nat 1700000000000
           (typing_reachable _) eq_refl eq_refl).
Defined.

(* ===================================================================== *)
(** * Part III: further properties of the two components                  *)
(* ===================================================================== *)

(** ** Lower case and tokens *)

Lemma lowerCodeUnit_idempotent c :
  JS.lowerCodeUnit (JS.lowerCodeUnit c) = JS.lowerCodeUnit c.
Proof. destruct c as [[] [] [] [] [] [] [] []]; reflexivity. Qed.

Lemma toLowerCase_idempotent s :
  JS.toLowerCase (JS.toLowerCase s) = JS.toLowerCase s.
Proof.
  induction s as [|c s IH]; [reflexivity|].
  simpl. now rewrite lowerCodeUnit_idempotent, IH.
Qed.

Lemma truthy_toLowerCase s : JS.truthy (JS.toLowerCase s) = JS.truthy s.
Proof. destruct s; reflexivity. Qed.

Lemma isWhiteSpace_lowerCodeUnit c :
  JS.isWhiteSpace (JS.lowerCodeUnit c) = JS.isWhiteSpace c.
Proof. destruct c as [[] [] [] [] [] [] [] []]; reflexivity. Qed.

Lemma allChars_append P s c :
  DiscussionMore.allChars P (s +:+ String c EmptyString) =
  DiscussionMore.allChars P s && P c.
Proof.
  induction s as [|d s IH]; simpl.
  - now rewrite andb_true_r.
  - rewrite IH. now rewrite andb_assoc.
Qed.

Lemma allChars_toLowerCase s :
  DiscussionMore.allChars
    (fun c => Ascii.eqb (JS.lowerCodeUnit c) c) (JS.toLowerCase s) = true.
Proof.
  induction s as [|c s IH]; [reflexivity|]. simpl.
  rewrite lowerCodeUnit_idempotent, Ascii.eqb_refl. exact IH.
Qed.

Lemma allChars_fixed_toLowerCase s :
  DiscussionMore.allChars (fun c => Ascii.eqb (JS.lowerCodeUnit c) c) s = true ->
  JS.toLowerCase s = s.
Proof.
  induction s as [|c s IH]; [reflexivity|]. simpl.
  intros H. apply andb_true_iff in H as [Hc Hs].
  apply Ascii.eqb_eq in Hc. now rewrite Hc, IH.
Qed.

(** Every piece that [split_aux] gives is made of code units of the piece
    being read and of the rest of the string, none of them white space. *)
Lemma split_aux_pieces P s :
  forall piece inRun token,
    DiscussionMore.allChars (fun c => P c && negb (JS.isWhiteSpace c)) piece = true ->
    DiscussionMore.allChars P s = true ->
    In token (JS.split_aux piece inRun s) ->
    DiscussionMore.allChars (fun c => P c && negb (JS.isWhiteSpace c)) token = true.
Proof.
  induction s as [|c s IH]; intros piece inRun token Hp Hs Hin.
  - destruct Hin as [<-|[]]. exact Hp.
  - simpl in Hs. apply andb_true_iff in Hs as [Hc Hs]. simpl in Hin.
    destruct (JS.isWhiteSpace c) eqn:Ec.
    + destruct inRun.
      * now apply (IH piece true).
      * destruct Hin as [<-|Hin]; [exact Hp|]. now apply (IH EmptyString true).
    + apply (IH (piece +:+ String c EmptyString) false); [|exact Hs|exact Hin].
      rewrite allChars_append, Hp, Hc, Ec. reflexivity.
Qed.

(** No token at all comes out exactly when nothing but white space goes
    in. *)
Lemma split_aux_no_token s :
  forall piece inRun,
    List.filter JS.truthy (JS.split_aux piece inRun s) = [] <->
    piece = EmptyString /\ DiscussionMore.allChars JS.isWhiteSpace s = true.
Proof.
  induction s as [|c s IH]; intros piece inRun; simpl.
  - destruct piece; simpl; split; try tauto; try discriminate.
    intros [H _]. discriminate.
  - destruct (JS.isWhiteSpace c) eqn:Ec; simpl.
    + destruct inRun.
      * apply IH.
      * simpl. destruct piece; simpl.
        -- rewrite IH. tauto.
        -- split; [discriminate|]. intros [H _]. discriminate.
    + rewrite IH. split.
      * intros [H _]. destruct piece; discriminate.
      * intros [_ H]. discriminate.
Qed.

(** X1.  The tokens of a keyword query are never empty, hold no white space
    and are in lower case; a query gives no token exactly when it consists
    of white space only (the empty query included).  They are the tokens a
    visible discussion has been matched against. *)
Theorem keyword_tokens_wellformed :
  forall value,
    (forall token,
        In token (DiscussionMore.keywordTokens value) ->
        token <> EmptyString /\
        DiscussionMore.allChars (fun c => negb (JS.isWhiteSpace c)) token = true /\
        JS.toLowerCase token = token) /\
    (DiscussionMore.keywordTokens value = [] <->
     DiscussionMore.allChars JS.isWhiteSpace value = true) /\
    (forall (isMatch : string -> list string -> bool) statuses thread,
        ViewerDiscussion.isVisible isMatch
          {| Keywords := Some value; Discussion := statuses |} thread = true ->
        isMatch
          (JS.toLowerCase
             (if JS.truthy (ViewerDiscussion.keywords thread)
              then ViewerDiscussion.keywords thread else EmptyString))
          (DiscussionMore.keywordTokens value) = true).
Proof.
  intros value. unfold DiscussionMore.keywordTokens, JS.split_ws.
  split; [|split];
    [| |intros isMatch statuses thread H;
        unfold ViewerDiscussion.isVisible in H; simpl in H;
        now apply andb_true_iff in H as [_ H]].
  - intros token Hin. apply filter_In in Hin as [Hin Ht].
    split; [intros ->; discriminate|].
    pose proof (split_aux_pieces _ _ EmptyString false token eq_refl
                  (allChars_toLowerCase value) Hin) as H.
    split.
    + clear Hin Ht. induction token as [|c t IH]; [reflexivity|].
      simpl in *. apply andb_true_iff in H as [Hc Ht].
      apply andb_true_iff in Hc as [_ Hw]. now rewrite Hw, IH.
    + apply allChars_fixed_toLowerCase.
      clear Hin Ht. induction token as [|c t IH]; [reflexivity|].
      simpl in *. apply andb_true_iff in H as [Hc Ht].
      apply andb_true_iff in Hc as [Hl _]. now rewrite Hl, IH.
  - rewrite split_aux_no_token. split.
    + intros [_ H]. clear -H. induction value as [|c v IH]; [reflexivity|].
      simpl in *. apply andb_true_iff in H as [Hc Hv].
      rewrite isWhiteSpace_lowerCodeUnit in Hc. now rewrite Hc, IH.
    + intros H. split; [reflexivity|].
      induction value as [|c v IH]; [reflexivity|].
      simpl in *. apply andb_true_iff in H as [Hc Hv].
      now rewrite isWhiteSpace_lowerCodeUnit, Hc, IH.
Qed.

(** ** The filtered discussions *)

Lemma isVisible_lowerQuery (isMatch : string -> list string -> bool) filterState thread :
  ViewerDiscussion.isVisible isMatch (DiscussionMore.lowerQuery filterState) thread =
  ViewerDiscussion.isVisible isMatch filterState thread.
Proof.
  unfold ViewerDiscussion.isVisible, DiscussionMore.lowerQuery. simpl.
  destruct (Keywords filterState) as [q|]; simpl; [|reflexivity].
  now rewrite toLowerCase_idempotent.
Qed.

Lemma filter_ext_all {A} (f g : A -> bool) l :
  (forall x, f x = g x) -> List.filter f l = List.filter g l.
Proof.
  intros H. induction l as [|x l IH]; [reflexivity|].
  simpl. now rewrite H, IH.
Qed.

(** X2.  The case of the letters plays no part in filtering: whatever
    [isMatch] is, putting the keyword query in lower case changes neither the
    filtered discussions nor [hasExactKeywordMatch], and putting the
    signature of a discussion in lower case does not change whether it is
    visible. *)
Theorem filtering_ignores_case :
  forall (isMatch : string -> list string -> bool) filterState discussions,
    ViewerDiscussion.filteredDiscussions isMatch
      (DiscussionMore.lowerQuery filterState) discussions =
    ViewerDiscussion.filteredDiscussions isMatch filterState discussions /\
    ViewerDiscussion.hasExactKeywordMatch isMatch
      (DiscussionMore.lowerQuery filterState) discussions =
    ViewerDiscussion.hasExactKeywordMatch isMatch filterState discussions /\
    (forall thread,
        ViewerDiscussion.isVisible isMatch filterState
          (DiscussionMore.lowerSignature thread) =
        ViewerDiscussion.isVisible isMatch filterState thread).
Proof.
  intros isMatch filterState discussions.
  assert (ViewerDiscussion.filteredDiscussions isMatch
            (DiscussionMore.lowerQuery filterState) discussions =
          ViewerDiscussion.filteredDiscussions isMatch filterState discussions) as Hf.
  { apply filter_ext_all. intros x. apply isVisible_lowerQuery. }
  split; [exact Hf|]. split.
  - unfold ViewerDiscussion.hasExactKeywordMatch. rewrite Hf.
    unfold DiscussionMore.lowerQuery. simpl.
    destruct (Keywords filterState) as [q|]; simpl; [|reflexivity].
    now rewrite truthy_toLowerCase, toLowerCase_idempotent.
  - intros thread. unfold ViewerDiscussion.isVisible, DiscussionMore.lowerSignature.
    simpl. rewrite truthy_toLowerCase.
    destruct (JS.truthy (ViewerDiscussion.keywords thread)); [|reflexivity].
    now rewrite toLowerCase_idempotent.
Qed.




Lemma keyword_tokens_witness :
  In "rule01" (DiscussionMore.keywordTokens " RULE01  rule02 ") /\
  "rule01" <> EmptyString /\
  DiscussionMore.allChars (fun c => negb (JS.isWhiteSpace c)) "rule01" = true /\
  JS.toLowerCase "rule01" = "rule01".
Proof.
  assert (In "rule01" (DiscussionMore.keywordTokens " RULE01  rule02 ")) as Hin.
  { vm_compute. left. reflexivity. }
  split; [exact Hin|].
  exact (proj1 (keyword_tokens_wellformed " RULE01  rule02 ") "rule01" Hin).
Defined.

(** ** The store only grows *)

Lemma alter_keeps_threads (f : ViewerDiscussion.DiscussionItem -> ViewerDiscussion.DiscussionItem)
    (i : nat) (l : list ViewerDiscussion.DiscussionItem) :
  (forall d, ViewerDiscussion.keywords (f d) = ViewerDiscussion.keywords d /\
             exists more, ViewerDiscussion.comments (f d) =
                          (ViewerDiscussion.comments d ++ more)%list) ->
  forall ref d,
    l !! ref = Some d ->
    exists d' more,
      alter f i l !! ref = Some d' /\
      ViewerDiscussion.keywords d' = ViewerDiscussion.keywords d /\
      ViewerDiscussion.comments d' = (ViewerDiscussion.comments d ++ more)%list.
Proof.
  intros Hf ref d Hd. destruct (Nat.eq_dec i ref) as [->|Hne].
  - destruct (Hf d) as [Hk [more Hc]]. exists (f d), more.
    rewrite list_lookup_alter_eq, Hd. auto.
  - exists d, []. rewrite list_lookup_alter_ne by exact Hne.
    rewrite app_nil_r. auto.
Qed.

Lemma step_keeps_threads (isMatch : string -> list string -> bool) st ev st' :
  ViewerDiscussion.step isMatch st ev = Some st' ->
  forall ref d,
    ViewerDiscussion.discussions st !! ref = Some d ->
    exists d' more,
      ViewerDiscussion.discussions st' !! ref = Some d' /\
      ViewerDiscussion.keywords d' = ViewerDiscussion.keywords d /\
      ViewerDiscussion.comments d' = (ViewerDiscussion.comments d ++ more)%list.
Proof.
  intros Hstep ref d Hd.
  assert (forall l, l = ViewerDiscussion.discussions st ->
            exists d' more, l !! ref = Some d' /\
              ViewerDiscussion.keywords d' = ViewerDiscussion.keywords d /\
              ViewerDiscussion.comments d' = (ViewerDiscussion.comments d ++ more)%list)
    as Hsame.
  { intros l ->. exists d, []. rewrite app_nil_r. auto. }
  destruct ev; simpl in Hstep.
  - injection Hstep as <-. now apply Hsame.
  - destruct (ViewerDiscussion.selectedDiscussion st); [|discriminate].
    injection Hstep as <-. now apply Hsame.
  - destruct (ViewerDiscussion.selectedDiscussion st); [discriminate|].
    destruct (Keywords (ViewerDiscussion.filterState st)); [|discriminate].
    destruct (ViewerDiscussion.hasExactKeywordMatch _ _ _); [discriminate|].
    injection Hstep as <-. simpl. exists d, [].
    rewrite app_nil_r. split; [|auto]. now apply lookup_app_l_Some.
  - destruct (ViewerDiscussion.selectedDiscussion st); [discriminate|].
    destruct (ViewerDiscussion.rendersHeader _ _ _); [|discriminate].
    injection Hstep as <-. now apply Hsame.
  - destruct (_ && _); [|discriminate]. injection Hstep as <-. simpl.
    apply alter_keeps_threads; [|exact Hd].
    intros x. split; [reflexivity|]. exists []. now rewrite app_nil_r.
  - destruct (_ && _); [|discriminate]. injection Hstep as <-. simpl.
    apply alter_keeps_threads; [|exact Hd].
    intros x. split; [reflexivity|]. exists []. now rewrite app_nil_r.
  - destruct (ViewerDiscussion.selectedDiscussion st); [|discriminate].
    destruct (ViewerDiscussion.discussions st !! n); [|discriminate].
    destruct (_ && _); [|discriminate]. injection Hstep as <-. now apply Hsame.
  - destruct (ViewerDiscussion.selectedDiscussion st); [|discriminate].
    injection Hstep as <-. now apply Hsame.
  - destruct (ViewerDiscussion.selectedDiscussion st); [|discriminate].
    injection Hstep as <-. unfold ViewerDiscussion.onKeyPress.
    destruct (negb _); [now apply Hsame|]. simpl.
    apply alter_keeps_threads; [|exact Hd].
    intros x. split; [reflexivity|]. simpl. eauto.
Qed.

(** X4.  Whatever the user does, the store only grows and its discussions
    only gain comments: after every sequence of events, each discussion of
    the store is still at its place, under the same signature, and its
    earlier comments are the first of its comments, unchanged and in the same
    order. *)
Theorem store_is_append_only :
  forall (isMatch : string -> list string -> bool) evs st st',
    ViewerDiscussion.run isMatch st evs = Some st' ->
    forall ref d,
      ViewerDiscussion.discussions st !! ref = Some d ->
      exists d' more,
        ViewerDiscussion.discussions st' !! ref = Some d' /\
        ViewerDiscussion.keywords d' = ViewerDiscussion.keywords d /\
        ViewerDiscussion.comments d' = (ViewerDiscussion.comments d ++ more)%list.
Proof.
  intros isMatch evs. induction evs as [|ev evs IH]; intros st st' Hrun ref d Hd.
  - injection Hrun as <-. exists d, []. rewrite app_nil_r. auto.
  - simpl in Hrun.
    destruct (ViewerDiscussion.step isMatch st ev) as [st1|] eqn:E; [|discriminate].
    destruct (step_keeps_threads isMatch st ev st1 E ref d Hd)
      as (d1 & more1 & Hd1 & Hk1 & Hc1).
    destruct (IH st1 st' Hrun ref d1 Hd1) as (d' & more & Hd' & Hk & Hc).
    exists d', (more1 ++ more)%list. split; [exact Hd'|]. split; [congruence|].
    rewrite Hc, Hc1. now rewrite app_assoc.
Qed.

Lemma store_is_append_only_witness :
  exists d' more,
    ViewerDiscussion.discussions (Examples.typing "Agreed") !! 1%nat = Some d' /\
    ViewerDiscussion.keywords d' = "RULE01 RULE02" /\
    ViewerDiscussion.comments d' =
      (ViewerDiscussion.comments
         (nth 1 ViewerDiscussion.store_discussions
              (ViewerDiscussion.newDiscussionItem EmptyString EmptyString [])) ++ more)%list.
Proof.
  exact (store_is_append_only ViewerDiscussion.isMatch
           [ViewerDiscussion.ClickDiscussion 0; ViewerDiscussion.ChangeNewComment "Agreed"]
           (ViewerDiscussion.initial Examples.noFilter None)
           (Examples.typing "Agreed") eq_refl 1%nat
           (nth 1 ViewerDiscussion.store_discussions
                (ViewerDiscussion.newDiscussionItem EmptyString EmptyString []))
           eq_refl).
Defined.

(** ** Status and disposition stay within their lists *)



(** ** Starting a discussion *)

(** X6.  Whenever "Start new discussion" can be clicked, no discussion is
    selected and the keyword query is not empty; the click puts one
    discussion at the end of the store, with the query as typed for
    signature, the status "Open", the first disposition and no comment,
    selects it with a fresh comment box and leaves the filter alone.  If the
    new discussion passes the filter, [hasExactKeywordMatch] holds from then
    on, so that after going back the action is not offered again. *)
Theorem start_new_discussion_adds_and_selects :
  forall (isMatch : string -> list string -> bool) st st',
    ViewerDiscussion.step isMatch st ViewerDiscussion.ClickStartNewDiscussion = Some st' ->
    exists query,
      Keywords (ViewerDiscussion.filterState st) = Some query /\
      query <> EmptyString /\
      ViewerDiscussion.selectedDiscussion st = None /\
      ViewerDiscussion.discussions st' =
        (ViewerDiscussion.discussions st ++
         [ {| ViewerDiscussion.disposition := "Should fix, P1";
              ViewerDiscussion.comments := [];
              ViewerDiscussion.keywords := query;
              ViewerDiscussion.status := "Open" |} ])%list /\
      ViewerDiscussion.selectedDiscussion st' =
        Some (length (ViewerDiscussion.discussions st)) /\
      ViewerDiscussion.details st' = ViewerDiscussion.mountDetails /\
      ViewerDiscussion.filterState st' = ViewerDiscussion.filterState st /\
      (ViewerDiscussion.isVisible isMatch (ViewerDiscussion.filterState st)
         (ViewerDiscussion.newDiscussionItem query "Open" []) = true ->
       ViewerDiscussion.hasExactKeywordMatch isMatch
         (ViewerDiscussion.filterState st') (ViewerDiscussion.discussions st') = true /\
       forall st'',
         ViewerDiscussion.step isMatch st' ViewerDiscussion.ClickBack = Some st'' ->
         ViewerDiscussion.step isMatch st'' ViewerDiscussion.ClickStartNewDiscussion = None).
Proof.
  intros isMatch st st' Hstep. cbn [ViewerDiscussion.step] in Hstep.
  destruct (ViewerDiscussion.selectedDiscussion st) eqn:Es; [discriminate|].
  destruct (Keywords (ViewerDiscussion.filterState st)) as [query|] eqn:Eq;
    [|discriminate].
  destruct (ViewerDiscussion.hasExactKeywordMatch isMatch _ _) eqn:Eh; [discriminate|].
  injection Hstep as <-. exists query.
  split; [reflexivity|]. split.
  { intros ->. unfold ViewerDiscussion.hasExactKeywordMatch in Eh.
    rewrite Eq in Eh. discriminate. }
  split; [reflexivity|]. split; [reflexivity|]. split; [reflexivity|].
  split; [reflexivity|]. split; [reflexivity|].
  intros Hv.
  assert (ViewerDiscussion.hasExactKeywordMatch isMatch (ViewerDiscussion.filterState st)
            (ViewerDiscussion.discussions st ++
             [ViewerDiscussion.newDiscussionItem query "Open" []])%list = true) as Hh.
  { apply (visible_match_hasExactKeywordMatch isMatch _ _ query
             (ViewerDiscussion.newDiscussionItem query "Open" []));
      [exact Eq| |reflexivity].
    unfold ViewerDiscussion.filteredDiscussions. apply filter_In.
    split; [|exact Hv]. apply in_or_app. right. now left. }
  split; [exact Hh|].
  intros st'' Hback. cbn in Hback. injection Hback as <-.
  cbn [ViewerDiscussion.step ViewerDiscussion.withSelected
       ViewerDiscussion.selectedDiscussion ViewerDiscussion.filterState
       ViewerDiscussion.discussions ViewerDiscussion.onClickStartNewDiscussion].
  rewrite Eq.
  change (nth 0 ViewerDiscussion.statuses EmptyString) with "Open".
  now rewrite Hh.
Qed.

Lemma start_new_discussion_witness :
  exists st' query,
    ViewerDiscussion.step ViewerDiscussion.isMatch
      (ViewerDiscussion.initial {| Keywords := Some "Rule04"; Discussion := None |} None)
      ViewerDiscussion.ClickStartNewDiscussion = Some st' /\
    Keywords (ViewerDiscussion.filterState
                (ViewerDiscussion.initial
                   {| Keywords := Some "Rule04"; Discussion := None |} None)) = Some query /\
    query <> EmptyString /\
    ViewerDiscussion.selectedDiscussion st' = Some 3%nat.
Proof.
  eexists.
  destruct (start_new_discussion_adds_and_selects ViewerDiscussion.isMatch
              (ViewerDiscussion.initial {| Keywords := Some "Rule04"; Discussion := None |} None)
              _ eq_refl)
    as (query & Hq & Hne & _ & _ & Hsel & _).
  exists query. split; [reflexivity|]. split; [exact Hq|]. split; [exact Hne|].
  exact Hsel.
Defined.

(** ** The comments on show *)

(** X7.  For the selected discussion, the comments on show are the first
    comments of the discussion, at most three of them unless "show all" is
    set; "View more comments" can be clicked exactly when some comment is not
    on show; and the click puts every comment on show without touching the
    store. *)
Theorem view_more_iff_comments_hidden :
  forall (isMatch : string -> list string -> bool) st ref d,
    ViewerDiscussion.selectedDiscussion st = Some ref ->
    ViewerDiscussion.discussions st !! ref = Some d ->
    (exists hidden,
        ViewerDiscussion.comments d =
        (ViewerDiscussion.shownComments (ViewerDiscussion.details st) d ++ hidden)%list) /\
    (ViewerDiscussion.showAll (ViewerDiscussion.details st) = false ->
     (length (ViewerDiscussion.shownComments (ViewerDiscussion.details st) d) <= 3)%nat) /\
    (ViewerDiscussion.step isMatch st ViewerDiscussion.ClickViewMore <> None <->
     ViewerDiscussion.shownComments (ViewerDiscussion.details st) d <>
     ViewerDiscussion.comments d) /\
    (forall st',
        ViewerDiscussion.step isMatch st ViewerDiscussion.ClickViewMore = Some st' ->
        ViewerDiscussion.shownComments (ViewerDiscussion.details st') d =
          ViewerDiscussion.comments d /\
        ViewerDiscussion.discussions st' = ViewerDiscussion.discussions st /\
        ViewerDiscussion.selectedDiscussion st' = Some ref /\
        ViewerDiscussion.newComment (ViewerDiscussion.details st') =
          ViewerDiscussion.newComment (ViewerDiscussion.details st)).
Proof.
  intros isMatch st ref d Hsel Hd.
  unfold ViewerDiscussion.shownComments, ViewerDiscussion.limit.
  cbn [ViewerDiscussion.step]. rewrite Hsel, Hd.
  unfold ViewerDiscussion.limit.
  destruct (ViewerDiscussion.showAll (ViewerDiscussion.details st)) eqn:Ea.
  - rewrite andb_false_r. split; [exists []; now rewrite app_nil_r|].
    split; [discriminate|]. split; [tauto|]. discriminate.
  - rewrite andb_true_r. split.
    { exists (drop 3 (ViewerDiscussion.comments d)). now rewrite take_drop. }
    split.
    { intros _. rewrite length_take. lia. }
    split.
    + destruct (3 <? length (ViewerDiscussion.comments d))%nat eqn:El.
      * apply Nat.ltb_lt in El. split; [|discriminate].
        intros _ H. apply (f_equal (@length _)) in H.
        rewrite length_take in H. lia.
      * apply Nat.ltb_ge in El. split; [tauto|].
        intros H. exfalso. apply H. now apply take_ge.
    + intros st' H.
      destruct (3 <? length (ViewerDiscussion.comments d))%nat; [|discriminate].
      injection H as <-. simpl. auto.
Qed.

Lemma view_more_witness :
  exists hidden,
    ViewerDiscussion.comments
      (nth 0 ViewerDiscussion.store_discussions
           (ViewerDiscussion.newDiscussionItem EmptyString EmptyString [])) =
    (ViewerDiscussion.shownComments
       (ViewerDiscussion.details (Examples.typing "Agreed"))
       (nth 0 ViewerDiscussion.store_discussions
            (ViewerDiscussion.newDiscussionItem EmptyString EmptyString [])) ++ hidden)%list.
Proof.
  exact (proj1 (view_more_iff_comments_hidden ViewerDiscussion.isMatch
                  (Examples.typing "Agreed") 0%nat
                  (nth 0 ViewerDiscussion.store_discussions
                       (ViewerDiscussion.newDiscussionItem EmptyString EmptyString []))
                  eq_refl eq_refl)).
Defined.

(** ** The life of the comment box *)

(** X8.  While a discussion stays selected, "show all" once set stays set and
    the selection does not move: every event but "back" keeps both.  The
    state of the comment box does not outlive the selection: selecting a
    discussion, from the list or by starting one, always begins with "show
    all" unset, an empty pending text and no error mark. *)
Theorem show_all_lasts_as_long_as_the_selection :
  forall (isMatch : string -> list string -> bool) st ev st',
    ViewerDiscussion.step isMatch st ev = Some st' ->
    (ViewerDiscussion.selectedDiscussion st <> None ->
     ev <> ViewerDiscussion.ClickBack ->
     ViewerDiscussion.selectedDiscussion st' = ViewerDiscussion.selectedDiscussion st /\
     (ViewerDiscussion.showAll (ViewerDiscussion.details st) = true ->
      ViewerDiscussion.showAll (ViewerDiscussion.details st') = true)) /\
    (ViewerDiscussion.selectedDiscussion st = None ->
     ViewerDiscussion.selectedDiscussion st' <> None ->
     ViewerDiscussion.details st' = ViewerDiscussion.mountDetails).
Proof.
  intros isMatch st ev st' Hstep.
  destruct ev; cbn [ViewerDiscussion.step] in Hstep.
  - injection Hstep as <-. simpl. split; [auto|]. intros H1 H2. congruence.
  - split; [congruence|].
    intros H. rewrite H in Hstep. discriminate.
  - destruct (ViewerDiscussion.selectedDiscussion st); [discriminate|].
    split; [congruence|].
    destruct (Keywords (ViewerDiscussion.filterState st)); [|discriminate].
    destruct (ViewerDiscussion.hasExactKeywordMatch _ _ _); [discriminate|].
    injection Hstep as <-. reflexivity.
  - destruct (ViewerDiscussion.selectedDiscussion st); [discriminate|].
    split; [congruence|].
    destruct (ViewerDiscussion.rendersHeader _ _ _); [|discriminate].
    injection Hstep as <-. reflexivity.
  - destruct (_ && _); [|discriminate]. injection Hstep as <-. simpl.
    split; [auto|]. intros H1 H2. congruence.
  - destruct (_ && _); [|discriminate]. injection Hstep as <-. simpl.
    split; [auto|]. intros H1 H2. congruence.
  - destruct (ViewerDiscussion.selectedDiscussion st) eqn:Es; [|discriminate].
    split; [|discriminate].
    destruct (ViewerDiscussion.discussions st !! n); [|discriminate].
    destruct (_ && _); [|discriminate]. injection Hstep as <-. simpl. auto.
  - destruct (ViewerDiscussion.selectedDiscussion st) eqn:Es; [|discriminate].
    split; [|discriminate]. injection Hstep as <-. simpl. auto.
  - destruct (ViewerDiscussion.selectedDiscussion st) eqn:Es; [|discriminate].
    split; [|discriminate]. injection Hstep as <-.
    unfold ViewerDiscussion.onKeyPress. destruct (negb _); simpl; auto.
Qed.

Lemma show_all_witness :
  ViewerDiscussion.selectedDiscussion
    (ViewerDiscussion.onChange "Agreed, closing" (Examples.typing "Agreed")) =
  ViewerDiscussion.selectedDiscussion (Examples.typing "Agreed") /\
  (ViewerDiscussion.showAll (ViewerDiscussion.details (Examples.typing "Agreed")) = true ->
   ViewerDiscussion.showAll
     (ViewerDiscussion.details
        (ViewerDiscussion.onChange "Agreed, closing" (Examples.typing "Agreed"))) = true).
Proof.
  apply (proj1 (show_all_lasts_as_long_as_the_selection ViewerDiscussion.isMatch
                  (Examples.typing "Agreed")
                  (ViewerDiscussion.ChangeNewComment "Agreed, closing")
                  (ViewerDiscussion.onChange "Agreed, closing" (Examples.typing "Agreed"))
                  eq_refl)).
  - discriminate.
  - discriminate.
Defined.

(** ** Posting several comments *)

(** X9.  Typing and sending comments one after the other in the box of the
    selected discussion appends them to that discussion in the order in which
    they were sent, each with its text as typed, the time of its Enter and
    the author; the store keeps its length, the other discussions, the
    selection and the filter stay as they are. *)
Theorem comments_are_appended_in_post_order :
  forall (isMatch : string -> list string -> bool) posts st ref d,
    ViewerDiscussion.selectedDiscussion st = Some ref ->
    ViewerDiscussion.discussions st !! ref = Some d ->
    exists st' d',
      ViewerDiscussion.run isMatch st (DiscussionMore.postEvents posts) = Some st' /\
      ViewerDiscussion.discussions st' !! ref = Some d' /\
      ViewerDiscussion.comments d' =
        (ViewerDiscussion.comments d ++
         map (fun post =>
                {| ViewerDiscussion.who := JS.nullish (ViewerDiscussion.user st) "Anonymous";
                   ViewerDiscussion.when := snd post;
                   ViewerDiscussion.text := fst post |}) posts)%list /\
      ViewerDiscussion.keywords d' = ViewerDiscussion.keywords d /\
      ViewerDiscussion.status d' = ViewerDiscussion.status d /\
      ViewerDiscussion.disposition d' = ViewerDiscussion.disposition d /\
      length (ViewerDiscussion.discussions st') = length (ViewerDiscussion.discussions st) /\
      (forall other, other <> ref ->
         ViewerDiscussion.discussions st' !! other =
         ViewerDiscussion.discussions st !! other) /\
      ViewerDiscussion.selectedDiscussion st' = Some ref /\
      ViewerDiscussion.filterState st' = ViewerDiscussion.filterState st /\
      ViewerDiscussion.user st' = ViewerDiscussion.user st.
Proof.
  intros isMatch posts. induction posts as [|[t now] posts IH]; intros st ref d Hsel Hd.
  - exists st, d. simpl. rewrite app_nil_r. repeat split; auto.
  - cbn [DiscussionMore.postEvents flat_map app fst snd ViewerDiscussion.run
         ViewerDiscussion.step].
    rewrite Hsel. cbn [ViewerDiscussion.onChange ViewerDiscussion.withDetails
                       ViewerDiscussion.withSelected ViewerDiscussion.selectedDiscussion].
    rewrite Hsel.
    set (st1 := ViewerDiscussion.onKeyPress ref "Enter" now _).
    assert (ViewerDiscussion.selectedDiscussion st1 = Some ref) as Hsel1 by exact Hsel.
    assert (ViewerDiscussion.discussions st1 !! ref =
            Some (ViewerDiscussion.pushComment
                    {| ViewerDiscussion.who := JS.nullish (ViewerDiscussion.user st) "Anonymous";
                       ViewerDiscussion.when := now;
                       ViewerDiscussion.text := t |} d)) as Hd1.
    { subst st1. cbn. rewrite list_lookup_alter_eq, Hd. reflexivity. }
    destruct (IH st1 ref _ Hsel1 Hd1)
      as (st' & d' & Hrun & Hd' & Hc & Hk & Hs & Hdi & Hlen & Hother & Hs' & Hf & Hu).
    exists st', d'. split; [exact Hrun|]. split; [exact Hd'|]. split.
    { rewrite Hc. cbn. rewrite <- app_assoc. reflexivity. }
    split; [exact Hk|]. split; [exact Hs|]. split; [exact Hdi|]. split.
    { rewrite Hlen. subst st1. cbn. apply length_alter. }
    split.
    { intros other Hne. rewrite Hother by exact Hne. subst st1. cbn.
      apply list_lookup_alter_ne. congruence. }
    split; [exact Hs'|]. split; [exact Hf|]. exact Hu.
Qed.

Lemma comments_in_post_order_witness :
  exists st' d',
    ViewerDiscussion.run ViewerDiscussion.isMatch (Examples.typing "Agreed")
      (DiscussionMore.postEvents [("First", 1700000000000); ("Second", 1700000060000)]) =
      Some st' /\
    ViewerDiscussion.discussions st' !! 0%nat = Some d' /\
    ViewerDiscussion.comments d' =
      (ViewerDiscussion.comments
         (nth 0 ViewerDiscussion.store_discussions
              (ViewerDiscussion.newDiscussionItem EmptyString EmptyString [])) ++
       [ {| ViewerDiscussion.who := "Anonymous"; ViewerDiscussion.when := 1700000000000;
            ViewerDiscussion.text := "First" |};
         {| ViewerDiscussion.who := "Anonymous"; ViewerDiscussion.when := 1700000060000;
            ViewerDiscussion.text := "Second" |} ])%list.
Proof.
  destruct (comments_are_appended_in_post_order ViewerDiscussion.isMatch
              [("First", 1700000000000); ("Second", 1700000060000)]
              (Examples.typing "Agreed") 0%nat
              (nth 0 ViewerDiscussion.store_discussions
                   (ViewerDiscussion.newDiscussionItem EmptyString EmptyString []))
              eq_refl eq_refl)
    as (st' & d' & H1 & H2 & H3 & _).
  exists st', d'. split; [exact H1|]. split; [exact H2|]. exact H3.
Defined.

(** ** The logs that are left out *)



(** ** The run cards *)

Lemma NoDup_map_filter {A B} (g : A -> B) (f : A -> bool) l :
  NoDup (map g l) -> NoDup (map g (List.filter f l)).
Proof.
  induction l as [|x l IH]; simpl; [auto|].
  intros H. apply NoDup_cons in H as [Hx Hl].
  destruct (f x); simpl; [|now apply IH].
  apply NoDup_cons. split; [|now apply IH].
  intros Hin. apply Hx.
  apply list_elem_of_In in Hin. apply list_elem_of_In.
  apply in_map_iff in Hin as (y & Hy & Hin). apply in_map_iff.
  exists y. split; [exact Hy|]. now apply filter_In in Hin as [Hin _].
Qed.

Lemma runStores_logIndex_NoDup {Run} driverName localeCompare
    (props : Viewer.ViewerProps Run) logs :
  NoDup (map Viewer.logIndex (Viewer.runStores driverName localeCompare props logs)).
Proof.
  destruct logs as [logs|]; [|constructor]. unfold Viewer.runStores. cbv zeta.
  rewrite (Permutation_map Viewer.logIndex
             (sort_Permutation (Viewer.byDriverName driverName localeCompare)
                (Viewer.newRunStores props (Viewer.qualifyingRuns logs)))).
  rewrite newRunStores_logIndex. apply NoDup_seq.
Qed.

(** X11.  [runStoresSorted] holds as many run stores as [runStores], and no
    two of them have the same [logIndex]; hence the run cards of the near
    element, whose React key is the [logIndex] of their run store, all have
    different keys.  The cards are numbered from 0 in the order shown and
    each is told the number of all the run stores. *)
Theorem run_cards_have_distinct_keys :
  forall (Run : Type) (driverName : Viewer.RunStore Run -> string)
         (filteredCount : IFilterState -> Viewer.RunStore Run -> Z)
         (localeCompare : string -> string -> Z)
         (props : Viewer.ViewerProps Run) (filterState : IFilterState),
    let stores :=
      Viewer.runStoresSorted driverName filteredCount localeCompare props filterState in
    length stores =
      length (Viewer.runStores driverName localeCompare props (Viewer.logs props)) /\
    NoDup (map Viewer.logIndex stores) /\
    forall cards,
      ViewerMore.nearElement filteredCount filterState stores = ViewerMore.Cards cards ->
      NoDup (map ViewerMore.key cards) /\
      map ViewerMore.index cards = seq 0 (length cards) /\
      Forall (fun card => ViewerMore.runCount card = length stores) cards.
Proof.
  intros Run driverName filteredCount localeCompare props filterState stores.
  assert (NoDup (map Viewer.logIndex stores)) as Hnd.
  { subst stores. unfold Viewer.runStoresSorted, Viewer.sorted, Viewer.slice.
    rewrite (Permutation_map Viewer.logIndex
               (sort_Permutation (Viewer.highestCountFirst filteredCount filterState)
                  (Viewer.runStores driverName localeCompare props (Viewer.logs props)))).
    apply runStores_logIndex_NoDup. }
  split; [apply sort_length|]. split; [exact Hnd|].
  intros cards Hc. unfold ViewerMore.nearElement in Hc.
  destruct (length stores =? 0)%nat; [discriminate|].
  destruct (_ || _); [|discriminate]. injection Hc as <-.
  set (f := fun run : Viewer.RunStore Run => _ || _).
  split; [|split].
  - change (map ViewerMore.key) with (fmap (M := list) (@ViewerMore.key Run)).
    rewrite fmap_imap. unfold compose. simpl.
    change (imap (fun _ run => Viewer.logIndex run) (List.filter f stores))
      with (imap (const (@Viewer.logIndex Run)) (List.filter f stores)).
    rewrite imap_const. now apply NoDup_map_filter.
  - change (map ViewerMore.index) with (fmap (M := list) (@ViewerMore.index Run)).
    rewrite fmap_imap. unfold compose. simpl.
    rewrite imap_seq_0, length_imap. apply list_fmap_id.
  - apply List.Forall_forall. intros card Hin.
    apply list_elem_of_In, elem_of_lookup_imap in Hin as (i & x & -> & _).
    reflexivity.
Qed.

Lemma run_cards_witness :
  exists cards,
    ViewerMore.nearElement (fun _ s => Viewer.run s) Examples.noFilter
      (Viewer.runStoresSorted (fun _ => "driver") (fun _ s => Viewer.run s)
         JS.compareCodeUnits
         {| Viewer.logs := Some [ {| Viewer.version := "2.1.0"; Viewer.runs := [3; 0; 5] |} ];
            Viewer.hideBaseline := None; Viewer.showAge := None |}
         Examples.noFilter) = ViewerMore.Cards cards /\
    NoDup (map ViewerMore.key cards).
Proof.
  eexists. split; [reflexivity|].
  refine (proj1 (proj2 (proj2 (run_cards_have_distinct_keys Z (fun _ => "driver")
            (fun _ s => Viewer.run s) JS.compareCodeUnits
            {| Viewer.logs := Some [ {| Viewer.version := "2.1.0"; Viewer.runs := [3; 0; 5] |} ];
               Viewer.hideBaseline := None; Viewer.showAge := None |}
            Examples.noFilter)) _ eq_refl)).
Defined.

(** ** Two sorts in a row *)

(** Sorting a list that is already in some order [D] keeps that order among
    the elements the comparator does not tell apart. *)
Lemma insert_sorted_lexicographic {A} (cmp : A -> A -> Z) (D : A -> A -> Prop) x s :
  JS.Consistent cmp ->
  Forall (D x) s ->
  StronglySorted (fun a b => cmp a b <= 0 /\ (cmp a b = 0 -> D a b)) s ->
  StronglySorted (fun a b => cmp a b <= 0 /\ (cmp a b = 0 -> D a b))
                 (JS.insert_sorted cmp x s).
Proof.
  intros HC. induction s as [|y s IH]; intros HD Hs; cbn [JS.insert_sorted].
  - constructor; constructor.
  - apply StronglySorted_inv in Hs as [Hs Hy].
    rewrite List.Forall_forall in HD, Hy.
    destruct (cmp x y <=? 0) eqn:E.
    + apply Z.leb_le in E. constructor; [now constructor; [|apply List.Forall_forall]|].
      apply List.Forall_forall. intros z Hz. split; [|intros _; now apply HD].
      destruct Hz as [<-|Hz]; [exact E|].
      apply (JS.cmp_trans cmp HC _ y); [exact E|]. now apply Hy.
    + apply Z.leb_gt in E. constructor.
      * apply IH; [|exact Hs]. apply List.Forall_forall. intros z Hz.
        apply HD. now right.
      * apply List.Forall_forall. intros z Hz.
        apply (Permutation_in _ (insert_sorted_Permutation cmp x s)) in Hz.
        destruct Hz as [<-|Hz]; [|now apply Hy].
        apply (JS.cmp_flip cmp HC) in E. split; lia.
Qed.

Lemma sort_lexicographic {A} (cmp : A -> A -> Z) (D : A -> A -> Prop) l :
  JS.Consistent cmp ->
  StronglySorted D l ->
  StronglySorted (fun a b => cmp a b <= 0 /\ (cmp a b = 0 -> D a b)) (JS.sort cmp l).
Proof.
  intros HC. induction l as [|x l IH]; intros Hl; cbn [JS.sort foldr].
  - constructor.
  - apply StronglySorted_inv in Hl as [Hl Hx].
    apply insert_sorted_lexicographic; [exact HC| |now apply IH].
    rewrite List.Forall_forall in Hx |- *. intros z Hz. apply Hx.
    now apply (Permutation_in _ (sort_Permutation cmp l)).
Qed.

(** X12.  Under a consistent collation, [runStoresSorted] is ordered by
    filtered count, highest first, and run stores of one and the same count
    are ordered by driver name: the sort of [runStores] decides the ties of
    the sort of [runStoresSorted]. *)
Theorem equal_counts_are_ordered_by_driver_name :
  forall (Run : Type) (driverName : Viewer.RunStore Run -> string)
         (filteredCount : IFilterState -> Viewer.RunStore Run -> Z)
         (localeCompare : string -> string -> Z)
         (props : Viewer.ViewerProps Run) (filterState : IFilterState),
    JS.Consistent localeCompare ->
    StronglySorted
      (fun a b =>
         filteredCount filterState b <= filteredCount filterState a /\
         (filteredCount filterState a = filteredCount filterState b ->
          localeCompare (driverName a) (driverName b) <= 0))
      (Viewer.runStoresSorted driverName filteredCount localeCompare props filterState).
Proof.
  intros Run driverName filteredCount localeCompare props filterState HC.
  unfold Viewer.runStoresSorted, Viewer.sorted, Viewer.slice.
  assert (StronglySorted
            (fun a b => localeCompare (driverName a) (driverName b) <= 0)
            (Viewer.runStores driverName localeCompare props (Viewer.logs props))) as Hd.
  { destruct (Viewer.logs props) as [logs|]; [|constructor].
    apply (sort_StronglySorted (Viewer.byDriverName driverName localeCompare)).
    unfold Viewer.byDriverName. destruct HC as [H1 H2 H3]. split; intros; eauto. }
  pose proof (sort_lexicographic _ _ _
                (highestCountFirst_Consistent filteredCount filterState) Hd) as H.
  eapply StronglySorted_ind with (P := StronglySorted _); [| |exact H].
  - constructor.
  - intros a l _ IH Ha. constructor; [exact IH|].
    eapply List.Forall_impl; [|exact Ha].
    intros b [Hb1 Hb2]. unfold Viewer.highestCountFirst in *. simpl in *.
    split; [lia|]. intros Heq. apply Hb2. lia.
Qed.

Lemma equal_counts_witness :
  StronglySorted
    (fun a b : Viewer.RunStore (string * Z) =>
       snd (Viewer.run b) <= snd (Viewer.run a) /\
       (snd (Viewer.run a) = snd (Viewer.run b) ->
        JS.compareCodeUnits (fst (Viewer.run a)) (fst (Viewer.run b)) <= 0))
    (Viewer.runStoresSorted (fun s => fst (Viewer.run s)) (fun _ s => snd (Viewer.run s))
       JS.compareCodeUnits
       {| Viewer.logs :=
            Some [ {| Viewer.version := "2.1.0";
                      Viewer.runs := [("b", 2); ("a", 2); ("c", 7)] |} ];
          Viewer.hideBaseline := None; Viewer.showAge := None |}
       Examples.noFilter).
Proof.
  exact (equal_counts_are_ordered_by_driver_name (string * Z)
           (fun s => fst (Viewer.run s)) (fun _ s => snd (Viewer.run s))
           JS.compareCodeUnits _ Examples.noFilter compareCodeUnits_Consistent).
Defined.

(** ** The near element *)

Lemma fold_left_counts {A} (count : A -> Z) l :
  forall acc,
    (forall x, In x l -> 0 <= count x) ->
    0 <= acc ->
    (fold_left (fun total x => total + count x) l acc = 0 <->
     acc = 0 /\ forall x, In x l -> count x = 0).
Proof.
  induction l as [|y l IH]; intros acc Hl Hacc; simpl.
  - split; [intros ->; split; [reflexivity|tauto]|tauto].
  - assert (0 <= count y) as Hy by (apply Hl; now left).
    rewrite IH; [|intros x Hx; apply Hl; now right|lia].
    split.
    + intros [H0 Hall]. split; [lia|]. intros x [<-|Hx]; [lia|now apply Hall].
    + intros [-> Hall]. split; [rewrite (Hall y); [reflexivity|now left]|].
      intros x Hx. apply Hall. now right.
Qed.

Lemma runStore_of_cards {Run} (n : nat) (l : list (Viewer.RunStore Run)) :
  map ViewerMore.runStore
      (imap (fun index run =>
               {| ViewerMore.key := Viewer.logIndex run;
                  ViewerMore.runStore := run;
                  ViewerMore.index := index;
                  ViewerMore.runCount := n |}) l) = l.
Proof.
  change (map ViewerMore.runStore) with (fmap (M := list) (@ViewerMore.runStore Run)).
  rewrite fmap_imap. unfold compose. simpl.
  change (imap (fun _ run => run) l) with (imap (const id) l).
  rewrite imap_const. apply list_fmap_id.
Qed.

Lemma filter_true {A} (l : list A) : List.filter (fun _ => true) l = l.
Proof. induction l as [|x l IH]; [reflexivity|]. simpl. now rewrite IH. Qed.

(** X13.  With filtered counts that are never negative, the near element is
    null exactly when there is no run store; it is the "No results found"
    card exactly when there are run stores, a keyword query is set and every
    filtered count is zero; otherwise it is a list of run cards that is never
    empty: with no keyword query one card for each run store, in their order,
    and with a keyword query the cards of the run stores whose count is not
    zero, in their order. *)
Theorem near_element_cases :
  forall (Run : Type) (filteredCount : IFilterState -> Viewer.RunStore Run -> Z)
         (filterState : IFilterState) (stores : list (Viewer.RunStore Run)),
    (forall s, In s stores -> 0 <= filteredCount filterState s) ->
    let near := ViewerMore.nearElement filteredCount filterState stores in
    (near = ViewerMore.Loading <-> stores = []) /\
    (near = ViewerMore.ZeroData <->
     stores <> [] /\
     ViewerMore.truthyKeywords (Keywords filterState) = true /\
     forall s, In s stores -> filteredCount filterState s = 0) /\
    (forall cards,
        near = ViewerMore.Cards cards ->
        cards <> [] /\
        (ViewerMore.truthyKeywords (Keywords filterState) = false ->
         map ViewerMore.runStore cards = stores) /\
        (ViewerMore.truthyKeywords (Keywords filterState) = true ->
         map ViewerMore.runStore cards =
         List.filter (fun s => negb (filteredCount filterState s =? 0)) stores)).
Proof.
  intros Run filteredCount filterState stores Hnn near. subst near.
  unfold ViewerMore.nearElement.
  pose proof (fold_left_counts (filteredCount filterState) stores 0 Hnn (Z.le_refl 0))
    as Hsum.
  set (total := fold_left _ stores 0) in *.
  destruct (length stores =? 0)%nat eqn:El.
  { apply Nat.eqb_eq in El. destruct stores; [|discriminate].
    split; [tauto|]. split; [|discriminate]. split; [discriminate|]. tauto. }
  assert (stores <> []) as Hne by (intros ->; discriminate).
  destruct (ViewerMore.truthyKeywords (Keywords filterState)) eqn:Ek;
    cbn [negb orb].
  - destruct (ViewerMore.truthyNumber total) eqn:Et;
      unfold ViewerMore.truthyNumber in Et;
      [apply negb_true_iff, Z.eqb_neq in Et as E0
      |apply negb_false_iff, Z.eqb_eq in Et as E0]; cycle 1.
    + split; [split; [discriminate|tauto]|]. split; [|discriminate].
      split; [|reflexivity]. intros _. split; [exact Hne|].
      split; [reflexivity|]. now apply Hsum.
    + split; [split; [discriminate|tauto]|]. split.
      { split; [discriminate|]. intros (_ & _ & Hall). exfalso. apply E0.
        apply Hsum. auto. }
      intros cards Hc. injection Hc as <-.
      rewrite runStore_of_cards.
      split; [|split; [discriminate|reflexivity]].
      intros Hnil. apply (f_equal (map ViewerMore.runStore)) in Hnil.
      rewrite runStore_of_cards in Hnil. simpl in Hnil.
      apply E0, Hsum. split; [reflexivity|]. intros s Hs.
      destruct (Z.eq_dec (filteredCount filterState s) 0) as [|Hnz]; [assumption|].
      exfalso.
      assert (In s (List.filter
                      (fun run => ViewerMore.truthyNumber (filteredCount filterState run))
                      stores)) as Hin.
      { apply filter_In. split; [exact Hs|].
        unfold ViewerMore.truthyNumber. now apply negb_true_iff, Z.eqb_neq. }
      rewrite Hnil in Hin. exact Hin.
  - split; [split; [discriminate|tauto]|]. split.
    { split; [discriminate|]. intros (_ & H & _). discriminate. }
    intros cards Hc. injection Hc as <-.
    rewrite runStore_of_cards, filter_true.
    split; [|split; [reflexivity|discriminate]].
    intros Hnil. apply (f_equal (map ViewerMore.runStore)) in Hnil.
    rewrite runStore_of_cards in Hnil. simpl in Hnil. contradiction.
Qed.

Lemma near_element_witness :
  (forall s : Viewer.RunStore Z,
      In s [ {| Viewer.run := 3; Viewer.logIndex := 0%nat;
                Viewer.storeHideBaseline := None; Viewer.storeShowAge := None |};
             {| Viewer.run := 0; Viewer.logIndex := 1%nat;
                Viewer.storeHideBaseline := None; Viewer.storeShowAge := None |} ] ->
      0 <= Viewer.run s) /\
  (ViewerMore.nearElement (fun _ s => Viewer.run s)
     {| Keywords := Some "rule"; Discussion := None |}
     [ {| Viewer.run := 3; Viewer.logIndex := 0%nat;
          Viewer.storeHideBaseline := None; Viewer.storeShowAge := None |};
       {| Viewer.run := 0; Viewer.logIndex := 1%nat;
          Viewer.storeHideBaseline := None; Viewer.storeShowAge := None |} ] =
   ViewerMore.ZeroData <->
   [ {| Viewer.run := 3; Viewer.logIndex := 0%nat;
        Viewer.storeHideBaseline := None; Viewer.storeShowAge := None |};
     {| Viewer.run := 0; Viewer.logIndex := 1%nat;
        Viewer.storeHideBaseline := None; Viewer.storeShowAge := None |} ] <> [] /\
   ViewerMore.truthyKeywords (Some "rule") = true /\
   forall s : Viewer.RunStore Z,
     In s [ {| Viewer.run := 3; Viewer.logIndex := 0%nat;
               Viewer.storeHideBaseline := None; Viewer.storeShowAge := None |};
            {| Viewer.run := 0; Viewer.logIndex := 1%nat;
               Viewer.storeHideBaseline := None; Viewer.storeShowAge := None |} ] ->
     Viewer.run s = 0).
Proof.
  assert (forall s : Viewer.RunStore Z,
      In s [ {| Viewer.run := 3; Viewer.logIndex := 0%nat;
                Viewer.storeHideBaseline := None; Viewer.storeShowAge := None |};
             {| Viewer.run := 0; Viewer.logIndex := 1%nat;
                Viewer.storeHideBaseline := None; Viewer.storeShowAge := None |} ] ->
      0 <= Viewer.run s) as Hnn.
  { intros s [<-|[<-|[]]]; simpl; lia. }
  split; [exact Hnn|].
  exact (proj1 (proj2 (near_element_cases Z (fun _ s => Viewer.run s)
                         {| Keywords := Some "rule"; Discussion := None |} _ Hnn))).
Defined.

(** ** The revision and the toast *)

(** X14.  Over every sequence of events of the prompt, the applied revision
    grows by exactly the number of clicks on "Re-apply Filter" in the
    sequence.  Without a pipeline context the prompt is inert: no click is
    possible, and the dirty flag and the toast stay off. *)
Theorem revision_counts_the_reapply_clicks :
  forall evs st st',
    ViewerMore.run st evs = Some st' ->
    Viewer.appliedRevision st' =
      Viewer.appliedRevision st + Z.of_nat (ViewerMore.reapplyClicks evs) /\
    (Viewer.pipelineContext st = None ->
     Viewer.pipelineContext st' = None /\
     ViewerMore.reapplyClicks evs = 0%nat /\
     Viewer.dirty st' = false /\
     Viewer.rendersToast st' = false).
Proof.
  induction evs as [|ev evs IH]; intros st st' Hrun.
  - injection Hrun as <-. split; [cbn; lia|]. intros H.
    unfold Viewer.dirty, Viewer.rendersToast. rewrite H. auto.
  - cbn [ViewerMore.run] in Hrun.
    destruct (Viewer.step st ev) as [st1|] eqn:E; [|discriminate].
    destruct (IH st1 st' Hrun) as [Hrev Hnone].
    unfold ViewerMore.reapplyClicks in *. cbn [List.filter].
    unfold Viewer.step in E.
    destruct ev.
    + injection E as <-. split.
      * rewrite Hrev. unfold Viewer.appliedRevision. simpl.
        destruct (Viewer.pipelineContext st); simpl; lia.
      * intros H. apply Hnone. simpl. now rewrite H.
    + injection E as <-. split.
      * rewrite Hrev. unfold Viewer.appliedRevision. simpl.
        destruct (Viewer.pipelineContext st); simpl; lia.
      * intros H. apply Hnone. simpl. now rewrite H.
    + destruct (Viewer.rendersToast st) eqn:Et; [|discriminate].
      injection E as <-. split.
      * cbn [length]. rewrite Nat2Z.inj_succ, Hrev.
        unfold Viewer.appliedRevision.
        cbn [Viewer.pipelineContext]. unfold Viewer.rendersToast in Et.
        destruct (Viewer.pipelineContext st); [cbn; lia|discriminate].
      * intros H. unfold Viewer.rendersToast in Et. rewrite H in Et. discriminate.
Qed.

Lemma revision_counts_witness :
  exists st',
    ViewerMore.run
      {| Viewer.filter := Examples.noFilter;
         Viewer.pipelineContext :=
           Some {| Viewer.reviews := Some tt; Viewer.reviewRevision := 4;
                   Viewer.showReviewUpdated := false |} |}
      [ Viewer.ReviewUpdated; Viewer.ClickReapplyFilter;
        Viewer.ReviewUpdated; Viewer.FilterChanged {| Keywords := Some "a"; Discussion := None |};
        Viewer.ReviewUpdated; Viewer.ClickReapplyFilter ] = Some st' /\
    Viewer.appliedRevision st' = 4 + 2.
Proof.
  eexists. split; [reflexivity|].
  refine (proj1 (revision_counts_the_reapply_clicks
           [ Viewer.ReviewUpdated; Viewer.ClickReapplyFilter;
             Viewer.ReviewUpdated;
             Viewer.FilterChanged {| Keywords := Some "a"; Discussion := None |};
             Viewer.ReviewUpdated; Viewer.ClickReapplyFilter ]
           {| Viewer.filter := Examples.noFilter;
              Viewer.pipelineContext :=
                Some {| Viewer.reviews := Some tt; Viewer.reviewRevision := 4;
                        Viewer.showReviewUpdated := false |} |} _ eq_refl)).
Defined.

(** X15.  A click on "Re-apply Filter" and a change of the filter both take
    the toast off the page without touching whether the reviews are loaded:
    right after either of them "Re-apply Filter" cannot be clicked, so that
    two clicks always have a review update in between. *)
Theorem toast_is_gone_after_reapply_or_filter_change :
  forall st ev st',
    Viewer.step st ev = Some st' ->
    ev <> Viewer.ReviewUpdated ->
    Viewer.rendersToast st' = false /\
    Viewer.dirty st' = false /\
    Viewer.step st' Viewer.ClickReapplyFilter = None /\
    option_map Viewer.reviews (Viewer.pipelineContext st') =
      option_map Viewer.reviews (Viewer.pipelineContext st).
Proof.
  intros st ev st' Hstep Hev. unfold Viewer.step in Hstep.
  destruct ev; [| congruence |].
  - injection Hstep as <-.
    unfold Viewer.rendersToast, Viewer.dirty, Viewer.step, Viewer.rendersToast. simpl.
    destruct (Viewer.pipelineContext st) as [c|]; simpl; [|auto].
    destruct (Viewer.reviews c); auto.
  - destruct (Viewer.rendersToast st); [|discriminate]. injection Hstep as <-.
    unfold Viewer.rendersToast, Viewer.dirty, Viewer.step, Viewer.rendersToast. simpl.
    destruct (Viewer.pipelineContext st) as [c|]; simpl; [|auto].
    destruct (Viewer.reviews c); auto.
Qed.

Lemma toast_is_gone_witness :
  Viewer.step
    {| Viewer.filter := Examples.noFilter;
       Viewer.pipelineContext :=
         Some {| Viewer.reviews := Some tt; Viewer.reviewRevision := 5;
                 Viewer.showReviewUpdated := false |} |}
    Viewer.ClickReapplyFilter = None.
Proof.
  exact (proj1 (proj2 (proj2 (toast_is_gone_after_reapply_or_filter_change
           {| Viewer.filter := Examples.noFilter;
              Viewer.pipelineContext :=
                Some {| Viewer.reviews := Some tt; Viewer.reviewRevision := 4;
                        Viewer.showReviewUpdated := true |} |}
           Viewer.ClickReapplyFilter _ eq_refl ltac:(discriminate))))).
Defined.
